(** * The RFID-QR-App project scaffolder (scripts/create_project.py)

    A shallow embedding of the script and of the part of the Python
    runtime it runs on (pathlib paths, the directory tree of the
    volume, the exceptions of the file calls, standard output), and
    the properties of its two operations, [create_project_structure]
    and [verify_structure], and of its entry point.

    Scope of the runtime model.  The script is written for Windows (its
    root is a [C:\] path), so paths are parsed and the file calls fail
    the way they do there.  Paths are absolute, as the root of the
    script is: there is no current directory, and drive-relative paths
    ([C:name]) and UNC paths are not read the way pathlib reads them.
    Names are opaque and compared exactly: the
    model has no links, no [..] resolution and no case folding.  A
    directory is either writable or not (an entry can be made in it or
    not); search permission and a full disk are not modelled, so
    [exists] never raises.  Standard output takes every line, so
    [print] never raises, except in the module [Console], which is
    [create_project_structure] on a standard output that can refuse a
    line. *)

From stdpp Require Import base option list gmap strings.
From Stdlib Require Import Ascii String.

Open Scope string_scope.
Open Scope list_scope.

(** ** Strings *)

Module Str.

Definition nl : string := String "010" "".

(** Python's [s * n]. *)
Fixpoint repeat_string (s : string) (n : nat) : string :=
  match n with
  | O => ""
  | S k => s +:+ repeat_string s k
  end.

(** [sep.join(parts)]. *)
Fixpoint join (sep : string) (parts : list string) : string :=
  match parts with
  | [] => ""
  | [x] => x
  | x :: rest => x +:+ sep +:+ join sep rest
  end.

Definition is_sep (c : ascii) : bool :=
  bool_decide (c = "/"%char) || bool_decide (c = "\"%char).

Definition is_letter (c : ascii) : bool :=
  let n := nat_of_ascii c in
  (Nat.leb 65 n && Nat.leb n 90) || (Nat.leb 97 n && Nat.leb n 122).

(** The pieces of [s] between separators, innermost (last) first.
    [cur] is the piece being read, [acc] the pieces already closed. *)
Fixpoint pieces_from (s cur : string) (acc : list string) : list string :=
  match s with
  | EmptyString => cur :: acc
  | String c rest =>
      if is_sep c then pieces_from rest "" (cur :: acc)
      else pieces_from rest (cur +:+ String c "") acc
  end.

(** pathlib drops empty pieces and [.] pieces. *)
Definition keep_piece (s : string) : bool :=
  negb (bool_decide (s = "")) && negb (bool_decide (s = ".")).

Definition pieces (s : string) : list string :=
  filter (fun x => Is_true (keep_piece x)) (pieces_from s "" []).

(** [repr(s)], as it shows a file name inside the text of an
    [OSError]: double quotes around when the name has a single quote
    and no double quote, single quotes otherwise; a backslash before
    every backslash and before every quote of the kind that is
    around. *)
Definition double_quote : ascii := "034"%char.

Fixpoint contains (c : ascii) (s : string) : bool :=
  match s with
  | EmptyString => false
  | String d rest => bool_decide (d = c) || contains c rest
  end.

Fixpoint escape (quote : ascii) (s : string) : string :=
  match s with
  | EmptyString => ""
  | String c rest =>
      if bool_decide (c = "\"%char) || bool_decide (c = quote)
      then String "\" (String c (escape quote rest))
      else String c (escape quote rest)
  end.

Definition repr (s : string) : string :=
  let quote :=
    if contains "'" s && negb (contains double_quote s)
    then double_quote else "'"%char in
  String quote (escape quote s) +:+ String quote "".

End Str.

(** ** Paths (pathlib.Path, Windows flavour)

    A path is the list of its [parts], innermost first, so that
    [parent] is the tail; the anchor ([C:\]), when there is one, is the
    outermost part, the last of the list. *)

Abbreviation path := (list string) (only parsing).

Module PurePath.

(** A part that ends in a backslash can only be an anchor. *)
Fixpoint ends_with_backslash (s : string) : bool :=
  match s with
  | EmptyString => false
  | String c EmptyString => bool_decide (c = "\"%char)
  | String _ rest => ends_with_backslash rest
  end.

(** [Path(s)]: a drive letter, a colon and a separator make the anchor;
    a leading separator alone makes the anchor [\] of the current
    drive; everything else is relative. *)
Definition Path (s : string) : path :=
  match s with
  | String d (String ":" (String c rest)) =>
      if Str.is_letter d && Str.is_sep c
      then (Str.pieces rest ++ [String d ":\"])%list
      else Str.pieces s
  | String c rest =>
      if Str.is_sep c then (Str.pieces rest ++ ["\"])%list else Str.pieces s
  | EmptyString => []
  end.

(** [self.parent]; the anchor and the empty path are their own parent. *)
Definition parent (p : path) : path :=
  match p with
  | _ :: ((_ :: _) as up) => up
  | _ => p
  end.

(** [self / s]: an argument with a drive replaces [self], an argument
    with a root only keeps the drive of [self], a relative one is put
    below [self]. *)
Definition truediv (self : path) (s : string) : path :=
  let q := Path s in
  match last q with
  | Some a =>
      if bool_decide (a = "\")
      then match last self with
           | Some b => if ends_with_backslash b then (removelast q ++ [b])%list else q
           | None => q
           end
      else if ends_with_backslash a then q else (q ++ self)%list
  | None => self
  end.

(** [str(self)]. *)
Definition str (p : path) : string :=
  match rev p with
  | [] => "."
  | a :: rest =>
      if ends_with_backslash a then a +:+ Str.join "\" rest
      else Str.join "\" (a :: rest)
  end.

End PurePath.

Notation "p // s" := (PurePath.truediv p s) (at level 40, left associativity).

(** ** The directory tree, the exceptions and the world *)

(** A directory carries whether entries can be made in it; a file
    carries its contents and the time it was last written or touched. *)
Inductive node :=
  | Dir (writable : bool)
  | File (content : string) (mtime : nat).

#[global] Instance node_eq_dec : EqDecision node.
Proof. solve_decision. Defined.

(** The exceptions the file calls raise; all three are [OSError]s, each
    with the file name it is about. *)
Inductive exn :=
  | PermissionError (filename : path)
  | FileExistsError (filename : path)
  | FileNotFoundError (filename : path).

#[global] Instance exn_eq_dec : EqDecision exn.
Proof. solve_decision. Defined.

(** [str(e)], with the English texts of the system. *)
Definition str_exn (e : exn) : string :=
  match e with
  | PermissionError f =>
      "[WinError 5] Access is denied: " +:+ Str.repr (PurePath.str f)
  | FileExistsError f =>
      "[WinError 183] Cannot create a file when that file already exists: "
        +:+ Str.repr (PurePath.str f)
  | FileNotFoundError f =>
      "[WinError 3] The system cannot find the path specified: "
        +:+ Str.repr (PurePath.str f)
  end.

Record world := World {
  fs : gmap path node;      (* every entry of every volume *)
  clock : nat;              (* the time, advanced by each write *)
  stdout : list string      (* the arguments of the [print] calls so far *)
}.

Definition set_fs (m : gmap path node) (w : world) : world :=
  World m (clock w) (stdout w).

Definition tick (w : world) : world :=
  World (fs w) (S (clock w)) (stdout w).

Inductive result (A : Type) :=
  | Ok (a : A)
  | Raise (e : exn).
Arguments Ok {A} a.
Arguments Raise {A} e.

(** A computation runs on a world and leaves a world behind, also when
    it raises: what was written stays written. *)
Definition M (A : Type) : Type := world -> result A * world.

Definition ret {A} (a : A) : M A := fun w => (Ok a, w).

Definition raise {A} (e : exn) : M A := fun w => (Raise e, w).

Definition bind {A B} (c : M A) (k : A -> M B) : M B :=
  fun w =>
    match c w with
    | (Ok a, w') => k a w'
    | (Raise e, w') => (Raise e, w')
    end.

(** [try: c  except ... as e: h e]. *)
Definition try_except {A} (c : M A) (h : exn -> M A) : M A :=
  fun w =>
    match c w with
    | (Ok a, w') => (Ok a, w')
    | (Raise e, w') => h e w'
    end.

Notation "x <- c ;; k" := (bind c (fun x => k))
  (at level 100, c at next level, right associativity).
Notation "c ;; k" := (bind c (fun _ => k))
  (at level 100, right associativity).

(** [for x in xs: body x]. *)
Fixpoint for_each {A} (xs : list A) (body : A -> M unit) : M unit :=
  match xs with
  | [] => ret tt
  | x :: rest => body x ;; for_each rest body
  end.

Definition print (s : string) : M unit :=
  fun w => (Ok tt, World (fs w) (clock w) (stdout w ++ [s])).

(** ** The file calls *)

Module os.

(** [os.mkdir(p)].  An existing entry of any kind is in the way; a
    missing parent, or a parent that is a file, is a path not found; a
    volume that is not there cannot be made. *)
Definition mkdir (p : path) : M unit :=
  fun w =>
    match fs w !! p with
    | Some _ => (Raise (FileExistsError p), w)
    | None =>
        match p with
        | _ :: ((_ :: _) as up) =>
            match fs w !! up with
            | Some (Dir true) => (Ok tt, tick (set_fs (<[p := Dir true]> (fs w)) w))
            | Some (Dir false) => (Raise (PermissionError p), w)
            | Some (File _ _) => (Raise (FileNotFoundError p), w)
            | None => (Raise (FileNotFoundError p), w)
            end
        | _ => (Raise (FileNotFoundError p), w)
        end
    end.

(** [os.utime(p, None)]: the time of an existing file becomes now. *)
Definition utime (p : path) : M unit :=
  fun w =>
    match fs w !! p with
    | Some (File c _) => (Ok tt, tick (set_fs (<[p := File c (clock w)]> (fs w)) w))
    | Some (Dir _) => (Ok tt, w)
    | None => (Raise (FileNotFoundError p), w)
    end.

(** [os.close(os.open(p, O_CREAT | O_WRONLY))]: a missing file is made,
    empty; an existing one is opened and closed as it is. *)
Definition open_creat (p : path) : M unit :=
  fun w =>
    match fs w !! p with
    | Some (File _ _) => (Ok tt, w)
    | Some (Dir _) => (Raise (PermissionError p), w)
    | None =>
        match p with
        | _ :: ((_ :: _) as up) =>
            match fs w !! up with
            | Some (Dir true) => (Ok tt, tick (set_fs (<[p := File "" (clock w)]> (fs w)) w))
            | Some (Dir false) => (Raise (PermissionError p), w)
            | Some (File _ _) => (Raise (FileNotFoundError p), w)
            | None => (Raise (FileNotFoundError p), w)
            end
        | _ => (Raise (FileNotFoundError p), w)
        end
    end.

End os.

(** ** pathlib.Path methods *)

Module Path.

Definition exists_ (self : path) : M bool :=
  fun w => (Ok (bool_decide (is_Some (fs w !! self))), w).

Definition is_dir (self : path) : M bool :=
  fun w =>
    (Ok match fs w !! self with Some (Dir _) => true | _ => false end, w).

(** [self.mkdir(parents=False, exist_ok=exist_ok)]:
      try: os.mkdir(self)
      except FileNotFoundError: raise
      except OSError: if not exist_ok or not self.is_dir(): raise *)
Definition mkdir_flat (exist_ok : bool) (self : path) : M unit :=
  try_except (os.mkdir self) (fun e =>
    match e with
    | FileNotFoundError _ => raise e
    | _ =>
        d <- is_dir self ;;
        if negb exist_ok || negb d then raise e else ret tt
    end).

(** [self.mkdir(parents=parents, exist_ok=exist_ok)]:
      try: os.mkdir(self)
      except FileNotFoundError:
          if not parents or self.parent == self: raise
          self.parent.mkdir(parents=True, exist_ok=True)
          self.mkdir(parents=False, exist_ok=exist_ok)
      except OSError: if not exist_ok or not self.is_dir(): raise *)
Fixpoint mkdir (parents exist_ok : bool) (self : path) : M unit :=
  try_except (os.mkdir self) (fun e =>
    match e with
    | FileNotFoundError _ =>
        match self with
        | _ :: ((_ :: _) as up) =>
            if parents
            then mkdir true true up ;; mkdir_flat exist_ok self
            else raise e
        | _ => raise e
        end
    | _ =>
        d <- is_dir self ;;
        if negb exist_ok || negb d then raise e else ret tt
    end).

(** [self.touch()] (exist_ok=True):
      try: os.utime(self, None)
      except OSError: pass
      else: return
      os.close(os.open(self, O_CREAT | O_WRONLY)) *)
Definition touch (self : path) : M unit :=
  fun w =>
    match os.utime self w with
    | (Ok _, w') => (Ok tt, w')
    | (Raise _, w') => os.open_creat self w'
    end.

End Path.

(** ** The script

    The root, the project name and the two lists are local constants
    of [create_project_structure]; the list of [verify_structure] and
    the path the entry point hands to it are constants of their own.
    They are the variables of this section, and [Script] below fixes
    them to the values written in the source. *)

Section Scaffolder.

Variable base_path : path.
Variable project_name : string.
Variables directories files : list string.
Variable expected_items : list string.
Variable main_project_path : path.

Definition project_path : path := base_path // project_name.

Definition dquote : string := String "034" "".

(** What is printed for one item. *)
Definition dir_line (directory : string) : string :=
  "  ✓ " +:+ directory +:+ "/".
Definition created_line (file_path : string) : string :=
  "  ✓ " +:+ file_path.
Definition present_line (file_path : string) : string :=
  "  → " +:+ file_path +:+ " (bereits vorhanden)".

(** Lines 66 to 96: the summary, the overview and the next steps. *)
Definition closing_lines : list string :=
  [ Str.nl +:+ "✅ Projektstruktur erfolgreich erstellt!";
    "📁 Projektpfad: " +:+ PurePath.str project_path;
    Str.nl +:+ "📋 Erstellte Projektstruktur:";
    "rfid-qr-app/";
    "├── main.js";
    "├── preload.js";
    "├── renderer/";
    "│   ├── index.html";
    "│   ├── app.js";
    "│   └── styles.css";
    "├── rfid/";
    "│   └── rfid-listener.js";
    "├── db/";
    "│   └── db-client.js";
    "├── .env";
    "├── package.json";
    "└── electron-builder.yml";
    Str.nl +:+ "🚀 Nächste Schritte:";
    "1. Wechseln Sie in das Projektverzeichnis:";
    "   cd " +:+ dquote +:+ PurePath.str project_path +:+ dquote;
    "2. Initialisieren Sie das npm-Projekt:";
    "   npm init -y";
    "3. Installieren Sie die benötigten Dependencies:";
    "   npm install electron mssql node-hid dotenv";
    "4. Installieren Sie DevDependencies:";
    "   npm install --save-dev electron-builder";
    "5. Konfigurieren Sie die .env-Datei mit Ihren Datenbankeinstellungen" ].

(** The body of the first loop (lines 46 to 48). *)
Definition make_directory (directory : string) : M unit :=
  let dir_path := project_path // directory in
  Path.mkdir false true dir_path ;;
  print (dir_line directory).

(** The body of the second loop (lines 53 to 63). *)
Definition make_file (file_path : string) : M unit :=
  let full_file_path := project_path // file_path in
  Path.mkdir true true (PurePath.parent full_file_path) ;;
  present <- Path.exists_ full_file_path ;;
  if negb present
  then Path.touch full_file_path ;; print (created_line file_path)
  else print (present_line file_path).

(** The [try] block (lines 39 to 98). *)
Definition create_body : M bool :=
  print ("Erstelle Hauptprojektordner: " +:+ PurePath.str project_path) ;;
  Path.mkdir true true project_path ;;
  print (Str.nl +:+ "Erstelle Unterordner:") ;;
  for_each directories make_directory ;;
  print (Str.nl +:+ "Erstelle Dateien:") ;;
  for_each files make_file ;;
  for_each closing_lines print ;;
  ret true.

(** The three [except] clauses (lines 100 to 111), in their order. *)
Definition create_handler (e : exn) : M bool :=
  match e with
  | PermissionError _ =>
      print ("❌ Fehler: Keine Berechtigung zum Erstellen von Dateien in "
               +:+ PurePath.str base_path) ;;
      print "Führen Sie das Script als Administrator aus oder wählen Sie einen anderen Pfad." ;;
      ret false
  | FileExistsError _ =>
      print ("❌ Fehler: " +:+ str_exn e) ;;
      ret false
  | _ =>
      print ("❌ Unerwarteter Fehler: " +:+ str_exn e) ;;
      ret false
  end.

Definition create_project_structure : M bool :=
  try_except create_body create_handler.

(** What [verify_structure] prints for one item. *)
Definition found_line (item : string) : string := "  ✓ " +:+ item.
Definition missing_line (item : string) : string :=
  "  ❌ " +:+ item +:+ " - FEHLT!".

(** The loop of [verify_structure] (lines 133 to 140), with the flag
    [all_good] handed from one round to the next. *)
Fixpoint verify_loop (project_path : path) (items : list string)
    (all_good : bool) : M bool :=
  match items with
  | [] => ret all_good
  | item :: rest =>
      let item_path := project_path // item in
      present <- Path.exists_ item_path ;;
      if present
      then print (found_line item) ;; verify_loop project_path rest all_good
      else print (missing_line item) ;; verify_loop project_path rest false
  end.

Definition verify_structure (project_path : path) : M bool :=
  print (Str.nl +:+ "🔍 Überprüfe erstellte Struktur...") ;;
  verify_loop project_path expected_items true.

(** The exit status of the process. *)
Definition exit_status := nat.

(** The entry point (lines 144 to 156): running off the end of the
    script is status 0, [sys.exit(1)] is status 1. *)
Definition main : M exit_status :=
  print "🏗️  RFID-QR-App Projektstruktur Generator" ;;
  print (Str.repeat_string "=" 50) ;;
  success <- create_project_structure ;;
  if (success : bool)
  then
    verify_structure main_project_path ;;
    print (Str.nl +:+ "✅ Setup komplett! Sie können nun mit der Entwicklung beginnen.") ;;
    ret 0
  else
    print (Str.nl +:+ "❌ Setup fehlgeschlagen. Bitte überprüfen Sie die Fehlermeldungen oben.") ;;
    ret 1.

(** An exception that reaches the top of the script ends the process
    with status 1. *)
Definition run (w : world) : exit_status * world :=
  match main w with
  | (Ok status, w') => (status, w')
  | (Raise _, w') => (1, w')
  end.

End Scaffolder.

(** ** The constants of the source *)

Module Script.

Definition base_path : path :=
  PurePath.Path "C:\Users\damja\WebstormProjects\Shirtful\Wareneingang".

Definition project_name : string := "rfid-qr-app".

Definition directories : list string :=
  [ "renderer";
    "rfid";
    "db" ].

Definition files : list string :=
  [ "main.js";
    "preload.js";
    "renderer/index.html";
    "renderer/app.js";
    "renderer/styles.css";
    "rfid/rfid-listener.js";
    "db/db-client.js";
    ".env";
    "package.json";
    "electron-builder.yml" ].

Definition expected_items : list string :=
  [ "main.js";
    "preload.js";
    "renderer";
    "renderer/index.html";
    "renderer/app.js";
    "renderer/styles.css";
    "rfid";
    "rfid/rfid-listener.js";
    "db";
    "db/db-client.js";
    ".env";
    "package.json";
    "electron-builder.yml" ].

(** Line 151. *)
Definition main_project_path : path :=
  PurePath.Path "C:\Users\damja\WebstormProjects\Shirtful\Wareneingang\rfid-qr-app".

Definition project_path : path := project_path base_path project_name.

Definition create_project_structure : M bool :=
  create_project_structure base_path project_name directories files.

Definition verify_structure (project_path : path) : M bool :=
  verify_structure expected_items project_path.

Definition main : M exit_status :=
  main base_path project_name directories files expected_items main_project_path.

Definition run : world -> exit_status * world :=
  run base_path project_name directories files expected_items main_project_path.

End Script.

(** ** A standard output that can refuse a line

    [print] above always writes.  Python's [print] raises when standard
    output cannot encode a character of the line: [UnicodeEncodeError],
    a [ValueError] and so an [Exception], but no [OSError].  Nothing of
    the line is written then.  The script prints check marks and emoji,
    also inside its three [except] clauses, and guards no [print]
    anywhere.  This module is [create_project_structure] once more, on
    a standard output that is given by the lines it refuses: the file
    calls are the ones above, and an exception is either the [OSError]
    of a file call or the error of a [print]. *)

Module Console.

Inductive error :=
  | OSError (e : exn)
  | UnicodeEncodeError (message : string).

(** [str(e)]. *)
Definition str_error (e : error) : string :=
  match e with
  | OSError e => str_exn e
  | UnicodeEncodeError message => message
  end.

Inductive outcome (A : Type) :=
  | Done (a : A)
  | Failed (e : error).
Arguments Done {A} a.
Arguments Failed {A} e.

Definition C (A : Type) : Type := world -> outcome A * world.

Definition ret {A} (a : A) : C A := fun w => (Done a, w).

Definition bind {A B} (c : C A) (k : A -> C B) : C B :=
  fun w =>
    match c w with
    | (Done a, w') => k a w'
    | (Failed e, w') => (Failed e, w')
    end.

(** [try: c  except ... as e: h e]; what the handler raises is not
    caught again. *)
Definition try_except {A} (c : C A) (h : error -> C A) : C A :=
  fun w =>
    match c w with
    | (Done a, w') => (Done a, w')
    | (Failed e, w') => h e w'
    end.

Declare Scope console_scope.
Notation "x <- c ;; k" := (bind c (fun x => k))
  (at level 100, c at next level, right associativity) : console_scope.
Notation "c ;; k" := (bind c (fun _ => k))
  (at level 100, right associativity) : console_scope.
Local Open Scope console_scope.

Fixpoint for_each {A} (xs : list A) (body : A -> C unit) : C unit :=
  match xs with
  | [] => ret tt
  | x :: rest => body x ;; for_each rest body
  end.

(** A file call, with its exception as an [OSError]. *)
Definition lift {A} (c : M A) : C A :=
  fun w =>
    match c w with
    | (Ok a, w') => (Done a, w')
    | (Raise e, w') => (Failed (OSError e), w')
    end.

Section Stream.

(** The lines standard output cannot encode, each with the message of
    the error it raises. *)
Variable refuses : string -> option string.

Definition print (s : string) : C unit :=
  fun w =>
    match refuses s with
    | None => (Done tt, World (fs w) (clock w) (stdout w ++ [s]))
    | Some message => (Failed (UnicodeEncodeError message), w)
    end.

Variable base_path : path.
Variable project_name : string.
Variables directories files : list string.

(** The body of the first loop (lines 46 to 48). *)
Definition make_directory (directory : string) : C unit :=
  let dir_path := project_path base_path project_name // directory in
  lift (Path.mkdir false true dir_path) ;;
  print (dir_line directory).

(** The body of the second loop (lines 53 to 63). *)
Definition make_file (file_path : string) : C unit :=
  let full_file_path := project_path base_path project_name // file_path in
  lift (Path.mkdir true true (PurePath.parent full_file_path)) ;;
  present <- lift (Path.exists_ full_file_path) ;;
  if negb present
  then lift (Path.touch full_file_path) ;; print (created_line file_path)
  else print (present_line file_path).

(** The [try] block (lines 39 to 98). *)
Definition create_body : C bool :=
  print ("Erstelle Hauptprojektordner: "
           +:+ PurePath.str (project_path base_path project_name)) ;;
  lift (Path.mkdir true true (project_path base_path project_name)) ;;
  print (Str.nl +:+ "Erstelle Unterordner:") ;;
  for_each directories make_directory ;;
  print (Str.nl +:+ "Erstelle Dateien:") ;;
  for_each files make_file ;;
  for_each (closing_lines base_path project_name) print ;;
  ret true.

(** The three [except] clauses (lines 100 to 111), in their order; the
    last one is the only one that catches the error of a [print]. *)
Definition create_handler (e : error) : C bool :=
  match e with
  | OSError (PermissionError _) =>
      print ("❌ Fehler: Keine Berechtigung zum Erstellen von Dateien in "
               +:+ PurePath.str base_path) ;;
      print "Führen Sie das Script als Administrator aus oder wählen Sie einen anderen Pfad." ;;
      ret false
  | OSError (FileExistsError _) =>
      print ("❌ Fehler: " +:+ str_error e) ;;
      ret false
  | _ =>
      print ("❌ Unerwarteter Fehler: " +:+ str_error e) ;;
      ret false
  end.

Definition create_project_structure : C bool :=
  try_except create_body create_handler.

End Stream.

(** The lines the [except] clause that catches [e] prints. *)
Definition handler_lines (base_path : path) (e : error) : list string :=
  match e with
  | OSError (PermissionError _) =>
      [ "❌ Fehler: Keine Berechtigung zum Erstellen von Dateien in "
          +:+ PurePath.str base_path;
        "Führen Sie das Script als Administrator aus oder wählen Sie einen anderen Pfad." ]
  | OSError (FileExistsError _) => [ "❌ Fehler: " +:+ str_error e ]
  | _ => [ "❌ Unerwarteter Fehler: " +:+ str_error e ]
  end.

(** What an [except] clause that prints the lines [ls] gives: [False],
    or the error of one of these lines. *)
Definition handled (refuses : string -> option string) (ls : list string)
    (r : outcome bool) : Prop :=
  match r with
  | Done b => b = false
  | Failed err =>
      exists line message,
        line ∈ ls /\ refuses line = Some message /\
        err = UnicodeEncodeError message
  end.

(** A standard output that takes every line. *)
Definition takes_all (s : string) : option string := None.

(** A standard output with an ASCII encoding: a line with any other
    character is refused (the message of the codec, without the
    character and its position). *)
Definition is_ascii (c : ascii) : bool := Nat.ltb (nat_of_ascii c) 128.

Fixpoint all_ascii (s : string) : bool :=
  match s with
  | EmptyString => true
  | String c rest => is_ascii c && all_ascii rest
  end.

Definition ascii_only (s : string) : option string :=
  if all_ascii s then None
  else Some "'ascii' codec can't encode character: ordinal not in range(128)".

End Console.

(** ** Vocabulary of the properties *)

(** [p] is a directory of the tree [m]. *)
Definition is_dir_in (m : gmap path node) (p : path) : Prop :=
  ∃ b, m !! p = Some (Dir b).

(** A tree is well formed when the empty path is no entry and every
    entry below an anchor sits in a directory. *)
Definition wf_fs (m : gmap path node) : Prop :=
  m !! [] = None ∧
  ∀ x up n, up ≠ [] → m !! (x :: up) = Some n → is_dir_in m up.

(** The same, as a check on one entry of a given tree. *)
Definition wf_entry (m : gmap path node) (p : path) : bool :=
  match p with
  | _ :: ((_ :: _) as up) =>
      match m !! up with Some (Dir _) => true | _ => false end
  | _ => true
  end.

(** The only way the script changes a tree: a new entry [p] is put
    into an existing writable directory.  [grows I] says that the
    property [I] of trees survives that. *)
Definition grows (I : gmap path node → Prop) : Prop :=
  ∀ m x up n, I m → up ≠ [] → m !! (x :: up) = None →
    m !! up = Some (Dir true) → I (<[x :: up := n]> m).

(** [c] keeps the property [I] of the tree, whatever its outcome. *)
Definition keeps (I : gmap path node → Prop) {A} (c : M A) : Prop :=
  ∀ w r w', I (fs w) → c w = (r, w') → I (fs w').

(** The outcome of [c] and the tree it leaves depend on the tree only,
    not on the clock or on what was printed before. *)
Definition fs_only {A} (c : M A) : Prop :=
  ∀ w t r w', fs w = fs t → c w = (r, w') →
    ∃ t', c t = (r, t') ∧ fs t' = fs w'.

(** [c] can be run again: it only adds entries; once it went through,
    it goes through on every larger tree and leaves it as it is; once
    it raised, it raises the same on the tree it left, and leaves it as
    it is. *)
Definition rerunnable {A} (c : M A) : Prop :=
  ∀ w r w', c w = (r, w') →
    fs w ⊆ fs w' ∧
    match r with
    | Ok a => ∀ t, fs w' ⊆ fs t → ∃ t', c t = (Ok a, t') ∧ fs t' = fs t
    | Raise e => ∀ t, fs t = fs w' → ∃ t', c t = (Raise e, t') ∧ fs t' = fs t
    end.

(** From [m] to [m'] nothing changed but directories made, writable,
    where nothing was, at [p] and above. *)
Definition only_adds_dirs (p : path) (m m' : gmap path node) : Prop :=
  ∀ q, m' !! q = m !! q ∨
       (m !! q = None ∧ m' !! q = Some (Dir true) ∧ q `suffix_of` p).

(** What a run of [create_project_structure] prints. *)
Section Reports.

Variable base_path : path.
Variable project_name : string.

(** The line of the file loop for [f], on a run that started on the
    tree [m]: a file that was there is reported as present; only a
    file that was not there can be reported as made. *)
Definition file_report (m : gmap path node) (f l : string) : Prop :=
  l = present_line f ∨
  (m !! (project_path base_path project_name // f) = None ∧ l = created_line f).

(** Everything a run that goes through prints, given the lines of the
    file loop. *)
Definition report_lines (directories file_lines : list string) : list string :=
  ["Erstelle Hauptprojektordner: "
     +:+ PurePath.str (project_path base_path project_name)]
  ++ [Str.nl +:+ "Erstelle Unterordner:"]
  ++ map dir_line directories
  ++ [Str.nl +:+ "Erstelle Dateien:"]
  ++ file_lines
  ++ closing_lines base_path project_name.

(** What is printed when the exception [e] is caught. *)
Definition error_lines (e : exn) : list string :=
  match e with
  | PermissionError _ =>
      [ "❌ Fehler: Keine Berechtigung zum Erstellen von Dateien in "
          +:+ PurePath.str base_path;
        "Führen Sie das Script als Administrator aus oder wählen Sie einen anderen Pfad." ]
  | FileExistsError _ => [ "❌ Fehler: " +:+ str_exn e ]
  | FileNotFoundError _ => [ "❌ Unerwarteter Fehler: " +:+ str_exn e ]
  end.

End Reports.

(** The world after some more lines were printed. *)
Definition printed (ls : list string) (w : world) : world :=
  World (fs w) (clock w) (stdout w ++ ls).

(** Everything the layout declares is in the tree [m]. *)
Definition complete (base_path : path) (project_name : string)
    (directories files : list string) (m : gmap path node) : Prop :=
  let P := project_path base_path project_name in
  is_dir_in m P ∧
  (∀ d, d ∈ directories → is_dir_in m (P // d)) ∧
  (∀ f, f ∈ files → is_Some (m !! (P // f)) ∧
                    is_dir_in m (PurePath.parent (P // f))).

(** What [verify_structure] finds and prints for one item. *)
Definition item_present (m : gmap path node) (project_path : path)
    (item : string) : bool :=
  bool_decide (is_Some (m !! (project_path // item))).

Definition status_line (m : gmap path node) (project_path : path)
    (item : string) : string :=
  if item_present m project_path item then found_line item
  else missing_line item.

Definition verify_lines (m : gmap path node) (project_path : path)
    (items : list string) : list string :=
  (Str.nl +:+ "🔍 Überprüfe erstellte Struktur...")
    :: map (status_line m project_path) items.

(** The lines of the entry point. *)
Definition banner_lines : list string :=
  [ "🏗️  RFID-QR-App Projektstruktur Generator"; Str.repeat_string "=" 50 ].

Definition done_line : string :=
  Str.nl +:+ "✅ Setup komplett! Sie können nun mit der Entwicklung beginnen.".

Definition failed_line : string :=
  Str.nl +:+ "❌ Setup fehlgeschlagen. Bitte überprüfen Sie die Fehlermeldungen oben.".

(** [p] is not there and the chain of missing directories down to it
    can be made: going up from [p], the first entry that exists is a
    writable directory. *)
Fixpoint can_make (m : gmap path node) (p : path) : Prop :=
  match p with
  | x :: up =>
      match up with
      | _ :: _ =>
          m !! (x :: up) = None ∧ (m !! up = Some (Dir true) ∨ can_make m up)
      | [] => False
      end
  | [] => False
  end.

(** The body of [create_project_structure] up to the file loop, and
    the file loop over the files [pre] only: what has run when the run
    arrives at the file that follows [pre]. *)
Definition create_until (base_path : path) (project_name : string)
    (directories pre : list string) : M unit :=
  let project_path := project_path base_path project_name in
  print ("Erstelle Hauptprojektordner: " +:+ PurePath.str project_path) ;;
  Path.mkdir true true project_path ;;
  print (Str.nl +:+ "Erstelle Unterordner:") ;;
  for_each directories (make_directory base_path project_name) ;;
  print (Str.nl +:+ "Erstelle Dateien:") ;;
  for_each pre (make_file base_path project_name).

(** The tree [m] is well formed, [P] is a writable directory, and at
    [P] and below there are only writable directories and the files
    of [allowed]. *)
Definition tidy_below (P : path) (allowed : list string)
    (m : gmap path node) : Prop :=
  wf_fs m ∧ m !! P = Some (Dir true) ∧
  ∀ q n, P `suffix_of` q → m !! q = Some n →
    n = Dir true ∨ ∃ g c t, g ∈ allowed ∧ q = P // g ∧ n = File c t.

(** ** Worlds and layouts to try the script on *)

Module Examples.

(** A volume [C:] with nothing on it. *)
Definition fresh_volume : world :=
  World {[ ["C:\"] := Dir true ]} 0 [].

(** The same, but nothing can be made in its root. *)
Definition readonly_volume : world :=
  World {[ ["C:\"] := Dir false ]} 0 [].

(** [C:\Users] is a file. *)
Definition users_is_a_file : world :=
  World {[ ["C:\"] := Dir true; ["Users"; "C:\"] := File "x" 3 ]} 5 [].

(** No volume [C:] at all. *)
Definition no_volume : world := World ∅ 0 [].

(** [p] and everything above it. *)
Fixpoint chain (p : path) : list path :=
  match p with
  | [] => []
  | _ :: up => p :: chain up
  end.

(** The project directory is there, with a [main.js] that has
    contents. *)
Definition with_main_js : world :=
  World (<[ "main.js" :: Script.project_path := File "console.log(1)" 7 ]>
           (fold_right (λ p m, <[ p := Dir true ]> m) ∅
              (chain Script.project_path)))
        9 [].

(** The layout of the scenario of the specification. *)
Definition scenario_root : path := PurePath.Path "C:\work".
Definition scenario_name : string := "root".
Definition scenario_directories : list string := ["a"; "b"].
Definition scenario_files : list string := ["a/x.txt"; "c/y.txt"].
Definition scenario_items : list string := ["a"; "b"; "a/x.txt"; "c/y.txt"].
Definition scenario_path : path := PurePath.Path "C:\work\root".

(** The scenario root is there and [c] is a file in it. *)
Definition scenario_c_is_a_file : world :=
  World {[ ["C:\"] := Dir true;
           ["work"; "C:\"] := Dir true;
           ["root"; "work"; "C:\"] := Dir true;
           ["c"; "root"; "work"; "C:\"] := File "" 1 ]} 2 [].

(** A list for [verify_structure] with one item nothing makes. *)
Definition expected_and_more : list string :=
  Script.expected_items ++ ["README.md"].

End Examples.

(** ** Tactics *)

(** Case analysis on the lookups of a file call. *)
Ltac os_cases :=
  repeat (case_match; simplify_eq/=); try done.

(** Goals on concrete worlds, which hold by evaluation. *)
Ltac by_evaluation := vm_compute; reflexivity.
Ltac by_decision := apply (bool_decide_unpack _); vm_compute; exact I.

(** ** Vocabulary of the further properties *)

(** From [m] to [m'] entries were only added, each of them allowed by
    [ok]; what was there is there as it was. *)
Definition adds_only (ok : path → node → Prop) (m m' : gmap path node) : Prop :=
  ∀ q, m' !! q = m !! q ∨ (m !! q = None ∧ ∃ n, m' !! q = Some n ∧ ok q n).

(** [c] only adds entries that [ok] allows, whatever its outcome. *)
Definition adds (ok : path → node → Prop) {A} (c : M A) : Prop :=
  ∀ w r w', c w = (r, w') → adds_only ok (fs w) (fs w').

(** What a run of [create_project_structure] may put at [q]: a
    writable directory, at the project directory or above it, at the
    path of a declared directory, or at or above the parent of a
    declared file; or an empty file at the path of a declared file. *)
Definition may_add (base_path : path) (project_name : string)
    (directories files : list string) (q : path) (n : node) : Prop :=
  let P := project_path base_path project_name in
  (n = Dir true ∧
   (q `suffix_of` P ∨
    (∃ d, d ∈ directories ∧ q = P // d) ∨
    (∃ f, f ∈ files ∧ q `suffix_of` PurePath.parent (P // f)))) ∨
  (∃ f t, f ∈ files ∧ q = P // f ∧ n = File "" t).

(** The exception [e] tells the truth about the tree [m]: the entry it
    names is a regular file where a directory was to be made
    ([FileExistsError]), or is missing, with a parent in which nothing
    can be made ([PermissionError]) or with no directory to be made in
    ([FileNotFoundError]). *)
Definition explains (m : gmap path node) (e : exn) : Prop :=
  match e with
  | FileExistsError q => ∃ c t, m !! q = Some (File c t)
  | PermissionError q =>
      m !! q = None ∧ ∃ x up, q = x :: up ∧ m !! up = Some (Dir false)
  | FileNotFoundError q =>
      m !! q = None ∧ ∀ x up, q = x :: up → up ≠ [] → ¬ is_dir_in m up
  end.

(** When [c] raises, the exception tells the truth about the tree [c]
    leaves. *)
Definition raises_truly {A} (c : M A) : Prop :=
  ∀ w e w', c w = (Raise e, w') → explains (fs w') e.

(** The two lines [create_project_structure] prints before the first
    declared directory. *)
Definition opening_lines (base_path : path) (project_name : string)
    : list string :=
  [ "Erstelle Hauptprojektordner: "
      +:+ PurePath.str (project_path base_path project_name);
    Str.nl +:+ "Erstelle Unterordner:" ].

(** [tidy_below], as a check on one entry of a tree: outside [P]
    anything goes; at [P] and below, a directory is writable and a
    file sits at the path of one of the files of [allowed]. *)
Definition tidy_entry (P : path) (allowed : list string)
    (q : path) (n : node) : bool :=
  negb (bool_decide (P `suffix_of` q)) ||
  match n with
  | Dir writable => writable
  | File _ _ => bool_decide (q ∈ map (λ g, P // g) allowed)
  end.







(** [c'], on a standard output that can refuse a line, does what [c]
    does on the standard output that takes every line. *)
Definition same_as {A} (c' : Console.C A) (c : M A) : Prop :=
  ∀ w, c' w = Console.lift c w.

(** ** More worlds and layouts to try the script on *)

Module Cases.

(** The project directory is there, [renderer] is a directory in it
    and [rfid] is a file. *)
Definition rfid_is_a_file : world :=
  World (<[ "rfid" :: Script.project_path := File "notes" 4 ]>
           (<[ "renderer" :: Script.project_path := Dir true ]>
              (fold_right (λ p m, <[ p := Dir true ]> m) ∅
                 (Examples.chain Script.project_path))))
        6 [].

(** A layout that declares a file twice. *)
Definition twice_files : list string := ["a.txt"; "b.txt"; "a.txt"].

(** A layout with a directory inside a directory that nothing makes
    before it. *)
Definition nested_directories : list string := ["deep/er"; "a"].

(** The scenario root is there, but nothing can be made in it. *)
Definition readonly_project : world :=
  World {[ ["C:\"] := Dir true;
           ["work"; "C:\"] := Dir true;
           ["root"; "work"; "C:\"] := Dir false ]} 3 [].

End Cases.

(** * Properties *)

(** ** The monad *)

Lemma bind_inv {A B} (c : M A) (k : A → M B) w r w' :
  (x <- c ;; k x) w = (r, w') →
  (∃ a w1, c w = (Ok a, w1) ∧ k a w1 = (r, w')) ∨
  (∃ e, c w = (Raise e, w') ∧ r = Raise e).
Proof.
  unfold bind. destruct (c w) as [[a|e] w1]; intros H.
  - left. eauto.
  - right. exists e. by simplify_eq.
Qed.

Lemma bind_ok {A B} (c : M A) (k : A → M B) w a w1 :
  c w = (Ok a, w1) → (x <- c ;; k x) w = k a w1.
Proof. unfold bind. by intros ->. Qed.

Lemma bind_raise {A B} (c : M A) (k : A → M B) w e w1 :
  c w = (Raise e, w1) → (x <- c ;; k x) w = (Raise e, w1).
Proof. unfold bind. by intros ->. Qed.

Lemma try_inv {A} (c : M A) h w r w' :
  try_except c h w = (r, w') →
  (∃ a, c w = (Ok a, w') ∧ r = Ok a) ∨
  (∃ e w1, c w = (Raise e, w1) ∧ h e w1 = (r, w')).
Proof.
  unfold try_except. destruct (c w) as [[a|e] w1]; intros H.
  - left. exists a. by simplify_eq.
  - right. eauto.
Qed.

(** A run whose outcome is known. *)
Lemma run_result {A} (c : M A) w r : (c w).1 = r → c w = (r, (c w).2).
Proof. intros <-. by destruct (c w). Qed.

Lemma for_each_app {A} (xs ys : list A) body w :
  for_each (xs ++ ys) body w = (for_each xs body ;; for_each ys body) w.
Proof.
  revert w. induction xs as [|x xs IH]; intros w; simpl.
  - done.
  - unfold bind in *. destruct (body x w) as [[[]|e] w1]; [|done].
    apply IH.
Qed.

(** ** Rules for [keeps], [fs_only] and [rerunnable] *)

Section Rules.
Context {A B : Type}.
Implicit Types (c : M A) (k : A → M B) (I : gmap path node → Prop).

Lemma keeps_ret I (a : A) : keeps I (ret a).
Proof. intros w r w' HI [= <- <-]. done. Qed.

Lemma keeps_raise I e : keeps I (raise (A:=A) e).
Proof. intros w r w' HI [= <- <-]. done. Qed.

Lemma keeps_bind I c k : keeps I c → (∀ a, keeps I (k a)) → keeps I (x <- c ;; k x).
Proof.
  intros Hc Hk w r w' HI H.
  apply bind_inv in H as [(a & w1 & H1 & H2)|(e & H1 & ->)].
  - eapply Hk; [|exact H2]. eapply Hc; [exact HI|exact H1].
  - eapply Hc; [exact HI|exact H1].
Qed.

Lemma keeps_try I c (h : exn → M A) :
  keeps I c → (∀ e, keeps I (h e)) → keeps I (try_except c h).
Proof.
  intros Hc Hh w r w' HI H.
  apply try_inv in H as [(a & H1 & ->)|(e & w1 & H1 & H2)].
  - eapply Hc; [exact HI|exact H1].
  - eapply Hh; [|exact H2]. eapply Hc; [exact HI|exact H1].
Qed.

Lemma fs_only_ret (a : A) : fs_only (ret a).
Proof. intros w t r w' Hfs [= <- <-]. by exists t. Qed.

Lemma fs_only_raise e : fs_only (raise (A:=A) e).
Proof. intros w t r w' Hfs [= <- <-]. by exists t. Qed.

Lemma fs_only_bind c k :
  fs_only c → (∀ a, fs_only (k a)) → fs_only (x <- c ;; k x).
Proof.
  intros Hc Hk w t r w' Hfs H.
  apply bind_inv in H as [(a & w1 & H1 & H2)|(e & H1 & ->)].
  - destruct (Hc _ _ _ _ Hfs H1) as (t1 & Ht1 & Hfs1).
    destruct (Hk a w1 t1 r w' (eq_sym Hfs1) H2) as (t' & Ht' & Hfs').
    exists t'. by rewrite (bind_ok _ _ _ _ _ Ht1).
  - destruct (Hc _ _ _ _ Hfs H1) as (t1 & Ht1 & Hfs1).
    exists t1. by rewrite (bind_raise _ _ _ _ _ Ht1).
Qed.

Lemma fs_only_try c (h : exn → M A) :
  fs_only c → (∀ e, fs_only (h e)) → fs_only (try_except c h).
Proof.
  intros Hc Hh w t r w' Hfs H.
  apply try_inv in H as [(a & H1 & ->)|(e & w1 & H1 & H2)].
  - destruct (Hc _ _ _ _ Hfs H1) as (t1 & Ht1 & Hfs1).
    exists t1. unfold try_except. by rewrite Ht1.
  - destruct (Hc _ _ _ _ Hfs H1) as (t1 & Ht1 & Hfs1).
    destruct (Hh e w1 t1 r w' (eq_sym Hfs1) H2) as (t' & Ht' & Hfs').
    exists t'. unfold try_except. by rewrite Ht1.
Qed.

Lemma rerunnable_ret (a : A) : rerunnable (ret a).
Proof.
  intros w r w' [= <- <-]. split; [done|]. intros t _. by exists t.
Qed.

Lemma rerunnable_bind c k :
  rerunnable c → (∀ a, rerunnable (k a)) → rerunnable (x <- c ;; k x).
Proof.
  intros Hc Hk w r w' H.
  apply bind_inv in H as [(a & w1 & H1 & H2)|(e & H1 & ->)].
  - destruct (Hc _ _ _ H1) as [Hsub1 Hre1].
    destruct (Hk _ _ _ _ H2) as [Hsub2 Hre2].
    split; [by etrans|].
    destruct r as [b|e].
    + intros t Ht.
      destruct (Hre1 t) as (t1 & Ht1 & Hfs1); [by etrans|].
      destruct (Hre2 t1) as (t' & Ht' & Hfs'); [by rewrite Hfs1|].
      exists t'. rewrite (bind_ok _ _ _ _ _ Ht1). split; [done|congruence].
    + intros t Ht.
      destruct (Hre1 t) as (t1 & Ht1 & Hfs1); [by rewrite Ht|].
      destruct (Hre2 t1) as (t' & Ht' & Hfs'); [congruence|].
      exists t'. rewrite (bind_ok _ _ _ _ _ Ht1). split; [done|congruence].
  - destruct (Hc _ _ _ H1) as [Hsub1 Hre1].
    split; [done|]. intros t Ht.
    destruct (Hre1 t Ht) as (t1 & Ht1 & Hfs1).
    exists t1. by rewrite (bind_raise _ _ _ _ _ Ht1).
Qed.

End Rules.

Section LoopRules.
Context {A : Type}.
Implicit Types (body : A → M unit) (I : gmap path node → Prop).

Lemma keeps_for_each I xs body :
  (∀ x, keeps I (body x)) → keeps I (for_each xs body).
Proof.
  intros Hb. induction xs as [|x xs IH]; simpl.
  - apply keeps_ret.
  - apply keeps_bind; [apply Hb|]. intros _. exact IH.
Qed.

Lemma rerunnable_for_each xs body :
  (∀ x, rerunnable (body x)) → rerunnable (for_each xs body).
Proof.
  intros Hb. induction xs as [|x xs IH]; simpl.
  - apply rerunnable_ret.
  - apply rerunnable_bind; [apply Hb|]. intros _. exact IH.
Qed.

End LoopRules.

(** ** [print] *)

Lemma print_eq s w : print s w = (Ok tt, World (fs w) (clock w) (stdout w ++ [s])).
Proof. done. Qed.

Lemma keeps_print I s : keeps I (print s).
Proof. intros w r w' HI [= <- <-]. done. Qed.

Lemma rerunnable_print s : rerunnable (print s).
Proof.
  intros w r w' [= <- <-]. split; [done|]. intros t _.
  eexists. split; [done|]. done.
Qed.

(** All the lines of a list, printed one after the other. *)
Lemma for_each_print ls w :
  for_each ls print w = (Ok tt, World (fs w) (clock w) (stdout w ++ ls)).
Proof.
  revert w. induction ls as [|l ls IH]; intros w; simpl.
  - unfold ret. rewrite app_nil_r. by destruct w.
  - unfold bind. rewrite print_eq, IH. simpl. by rewrite <- app_assoc.
Qed.

(** ** The file calls *)

Lemma os_mkdir_ok p w a w' :
  os.mkdir p w = (Ok a, w') →
  ∃ x up, p = x :: up ∧ up ≠ [] ∧ fs w !! p = None ∧
    fs w !! up = Some (Dir true) ∧
    fs w' = <[p := Dir true]> (fs w) ∧ stdout w' = stdout w.
Proof.
  unfold os.mkdir. intros H.
  destruct p as [|x [|y up]]; os_cases.
  exists x, (y :: up). done.
Qed.

Lemma os_mkdir_raise p w e w' :
  os.mkdir p w = (Raise e, w') →
  w' = w ∧
  ( (e = FileExistsError p ∧ is_Some (fs w !! p))
  ∨ (e = PermissionError p ∧ fs w !! p = None ∧
       ∃ x up, p = x :: up ∧ up ≠ [] ∧ fs w !! up = Some (Dir false))
  ∨ (e = FileNotFoundError p ∧ fs w !! p = None ∧
       ∀ x up, p = x :: up → up ≠ [] → ¬ is_dir_in (fs w) up) ).
Proof.
  unfold os.mkdir, is_dir_in. intros H.
  destruct p as [|x [|y up]]; os_cases; split; try done.
  all: try (left; split; [done|]; by eexists).
  all: try (right; right; split; [done|]; split; [done|];
            intros x0 up0 Heq Hne [b Hb]; simplify_eq; congruence).
  right; left. split; [done|]. split; [done|]. by exists x, (y :: up).
Qed.

Lemma keeps_os_mkdir I p : grows I → keeps I (os.mkdir p).
Proof.
  intros HI w [a|e] w' Hw H.
  - apply os_mkdir_ok in H as (x & up & -> & Hne & Hp & Hup & -> & _).
    by apply HI.
  - apply os_mkdir_raise in H as [-> _]. done.
Qed.

Lemma fs_only_os_mkdir p : fs_only (os.mkdir p).
Proof.
  intros w t r w' Hfs. unfold os.mkdir. rewrite <- Hfs.
  destruct p as [|x [|y up]]; intros; os_cases; eexists; split; try done.
  all: simpl; congruence.
Qed.

(** ** [Path.exists], [Path.is_dir] *)

Lemma is_dir_true p w : is_dir_in (fs w) p → Path.is_dir p w = (Ok true, w).
Proof. intros [b Hb]. unfold Path.is_dir. by rewrite Hb. Qed.

Lemma is_dir_false p w : ¬ is_dir_in (fs w) p → Path.is_dir p w = (Ok false, w).
Proof.
  intros Hn. unfold Path.is_dir.
  destruct (fs w !! p) as [[b|c m]|] eqn:E; try done.
  destruct Hn. by exists b.
Qed.

Lemma is_dir_in_dec (m : gmap path node) (p : path) : is_dir_in m p ∨ ¬ is_dir_in m p.
Proof.
  unfold is_dir_in. destruct (m !! p) as [[b|c t]|]; [left; by exists b|right..];
    intros [b Hb]; done.
Qed.

Lemma is_dir_in_mono (m m' : gmap path node) (p : path) :
  m ⊆ m' → is_dir_in m p → is_dir_in m' p.
Proof. intros Hsub [b Hb]. exists b. by eapply lookup_weaken. Qed.

Lemma exists_true p w : is_Some (fs w !! p) → Path.exists_ p w = (Ok true, w).
Proof. intros H. unfold Path.exists_. by rewrite bool_decide_eq_true_2. Qed.

Lemma exists_false p w : fs w !! p = None → Path.exists_ p w = (Ok false, w).
Proof.
  intros H. unfold Path.exists_. rewrite bool_decide_eq_false_2; [done|].
  rewrite H. by intros [? ?].
Qed.

(** ** [Path.mkdir] *)

Lemma mkdir_unfold parents exist_ok p :
  Path.mkdir parents exist_ok p =
  try_except (os.mkdir p) (fun e =>
    match e with
    | FileNotFoundError _ =>
        match p with
        | _ :: ((_ :: _) as up) =>
            if parents
            then Path.mkdir true true up ;; Path.mkdir_flat exist_ok p
            else raise e
        | _ => raise e
        end
    | _ =>
        d <- Path.is_dir p ;;
        if negb exist_ok || negb d then raise e else ret tt
    end).
Proof. by destruct p. Qed.

(** Without [parents], [mkdir] is the flat one. *)
Lemma mkdir_noparents exist_ok p w :
  Path.mkdir false exist_ok p w = Path.mkdir_flat exist_ok p w.
Proof.
  rewrite mkdir_unfold. unfold Path.mkdir_flat, try_except.
  destruct (os.mkdir p w) as [[a|e] w1]; [done|].
  destruct e; try done. by destruct p as [|x [|y up]].
Qed.

(** The three ways [mkdir_flat] (with [exist_ok]) can end. *)
Lemma mkdir_flat_inv p w r w' :
  Path.mkdir_flat true p w = (r, w') →
  (r = Ok tt ∧ os.mkdir p w = (Ok tt, w')) ∨
  (r = Ok tt ∧ w' = w ∧ is_dir_in (fs w) p) ∨
  (∃ e, r = Raise e ∧ w' = w ∧ os.mkdir p w = (Raise e, w) ∧
        ¬ is_dir_in (fs w) p).
Proof.
  unfold Path.mkdir_flat. intros H.
  apply try_inv in H as [([] & H1 & ->)|(e & w1 & H1 & H2)]; [by left|].
  pose proof (os_mkdir_raise _ _ _ _ H1) as [-> Hcase].
  destruct (is_dir_in_dec (fs w) p) as [Hd|Hd].
  - destruct Hcase as [[-> _]|[(-> & Hp & _)|(-> & Hp & _)]].
    + unfold bind in H2. rewrite (is_dir_true _ _ Hd) in H2.
      simpl in H2. unfold ret in H2. simplify_eq. right; left. done.
    + destruct Hd as [b Hb]. congruence.
    + destruct Hd as [b Hb]. congruence.
  - right; right. exists e.
    assert (r = Raise e ∧ w' = w) as [-> ->]; [|done].
    destruct e; unfold bind, raise in H2;
      rewrite ?(is_dir_false _ _ Hd) in H2; simpl in H2;
      unfold raise in H2; by simplify_eq.
Qed.

(** An existing directory is left as it is. *)
Lemma mkdir_flat_settled p w :
  is_dir_in (fs w) p → Path.mkdir_flat true p w = (Ok tt, w).
Proof.
  intros Hd. unfold Path.mkdir_flat, try_except.
  destruct (os.mkdir p w) as [[[]|e] w1] eqn:E.
  - apply os_mkdir_ok in E as (x & up & _ & _ & Hp & _). destruct Hd. congruence.
  - apply os_mkdir_raise in E as [-> Hcase].
    destruct Hcase as [[-> _]|[(-> & Hp & _)|(-> & Hp & _)]].
    + unfold bind. by rewrite (is_dir_true _ _ Hd).
    + destruct Hd. congruence.
    + destruct Hd. congruence.
Qed.

Lemma mkdir_settled p w :
  is_dir_in (fs w) p → Path.mkdir true true p w = (Ok tt, w).
Proof.
  intros Hd. rewrite mkdir_unfold. unfold try_except.
  destruct (os.mkdir p w) as [[[]|e] w1] eqn:E.
  - apply os_mkdir_ok in E as (x & up & _ & _ & Hp & _). destruct Hd. congruence.
  - apply os_mkdir_raise in E as [-> Hcase].
    destruct Hcase as [[-> _]|[(-> & Hp & _)|(-> & Hp & _)]].
    + unfold bind. by rewrite (is_dir_true _ _ Hd).
    + destruct Hd. congruence.
    + destruct Hd. congruence.
Qed.

Lemma only_adds_dirs_refl (p : path) (m : gmap path node) : only_adds_dirs p m m.
Proof. intros q. by left. Qed.

Lemma only_adds_dirs_subseteq (p : path) (m m' : gmap path node) :
  only_adds_dirs p m m' → m ⊆ m'.
Proof.
  intros H. apply map_subseteq_spec. intros q n Hq.
  destruct (H q) as [->|(Hn & _)]; congruence.
Qed.

Lemma not_suffix_of_cons (x : string) (up : list string) : ¬ (x :: up) `suffix_of` up.
Proof.
  intros H. apply suffix_length in H. simpl in H. lia.
Qed.

(** [mkdir(parents=True, exist_ok=True)] either makes the whole chain
    of missing directories or raises and makes nothing. *)
Lemma mkdir_inv p : ∀ w r w',
  Path.mkdir true true p w = (r, w') →
  stdout w' = stdout w ∧
  only_adds_dirs p (fs w) (fs w') ∧
  match r with
  | Ok _ => is_dir_in (fs w') p
  | Raise _ => w' = w
  end.
Proof.
  induction p as [|x up IH]; intros w r w' H; rewrite mkdir_unfold in H.
  all: apply try_inv in H as [([] & H1 & ->)|(e & w1 & H1 & H2)].
  all: try (by apply os_mkdir_ok in H1 as (? & ? & ? & _)).
  - (* the empty path *)
    apply os_mkdir_raise in H1 as [-> Hcase].
    destruct Hcase as [[-> Hp]|[(-> & Hp & _)|(-> & Hp & _)]].
    + destruct (is_dir_in_dec (fs w) []) as [Hd|Hd]; unfold bind in H2;
        rewrite ?(is_dir_true _ _ Hd), ?(is_dir_false _ _ Hd) in H2;
        simpl in H2; unfold ret, raise in H2; simplify_eq;
        (split; [done|]; split; [apply only_adds_dirs_refl|done]).
    + assert (Hd : ¬ is_dir_in (fs w) []) by (intros [? ?]; congruence).
      unfold bind in H2. rewrite (is_dir_false _ _ Hd) in H2. simpl in H2.
      unfold raise in H2. simplify_eq.
      split; [done|]. split; [apply only_adds_dirs_refl|done].
    + unfold raise in H2. simplify_eq.
      split; [done|]. split; [apply only_adds_dirs_refl|done].
  - (* made at once *)
    apply os_mkdir_ok in H1 as (x' & up' & Heq & Hne & Hp & Hup & Hfs & Hout).
    split; [done|]. split.
    + intros q. rewrite Hfs. destruct (decide (q = x :: up)) as [->|Hq].
      * right. rewrite lookup_insert_eq. done.
      * left. by rewrite lookup_insert_ne.
    + rewrite Hfs. exists true. by rewrite lookup_insert_eq.
  - apply os_mkdir_raise in H1 as [-> Hcase].
    destruct Hcase as [[-> Hp]|[(-> & Hp & _)|(-> & Hp & Hnd)]].
    + (* something is there *)
      destruct (is_dir_in_dec (fs w) (x :: up)) as [Hd|Hd]; unfold bind in H2;
        rewrite ?(is_dir_true _ _ Hd), ?(is_dir_false _ _ Hd) in H2;
        simpl in H2; unfold ret, raise in H2; simplify_eq;
        (split; [done|]; split; [apply only_adds_dirs_refl|done]).
    + (* the parent is not writable *)
      assert (Hd : ¬ is_dir_in (fs w) (x :: up)) by (intros [? ?]; congruence).
      unfold bind in H2. rewrite (is_dir_false _ _ Hd) in H2. simpl in H2.
      unfold raise in H2. simplify_eq.
      split; [done|]. split; [apply only_adds_dirs_refl|done].
    + (* the parent is not there: make it, then try again *)
      destruct up as [|y up'].
      { unfold raise in H2. simplify_eq.
        split; [done|]. split; [apply only_adds_dirs_refl|done]. }
      apply bind_inv in H2 as [([] & w2 & H2 & H3)|(e & H2 & ->)].
      2:{ apply IH in H2 as (_ & _ & ->).
          split; [done|]. split; [apply only_adds_dirs_refl|done]. }
      apply IH in H2 as (Hout2 & Hadd2 & Hd2).
      assert (Hup2 : fs w2 !! (y :: up') = Some (Dir true)).
      { destruct (Hadd2 (y :: up')) as [Heq|(_ & ? & _)]; [|done].
        destruct Hd2 as [b Hb]. destruct (Hnd x (y :: up')); [done..|].
        exists b. congruence. }
      assert (Hp2 : fs w2 !! (x :: y :: up') = None).
      { destruct (Hadd2 (x :: y :: up')) as [Heq|(_ & _ & Hsuf)]; [congruence|].
        by apply not_suffix_of_cons in Hsuf. }
      apply mkdir_flat_inv in H3
        as [[-> H3]|[(-> & -> & [b Hb])|(e & -> & -> & H3 & _)]].
      * apply os_mkdir_ok in H3 as (x' & up'' & Heq & Hne & _ & _ & Hfs & Hout).
        split; [congruence|]. split.
        -- intros q. rewrite Hfs. destruct (decide (q = x :: y :: up')) as [->|Hq].
           ++ right. rewrite lookup_insert_eq. done.
           ++ rewrite lookup_insert_ne by done.
              destruct (Hadd2 q) as [?|(? & ? & Hsuf)]; [by left|right].
              split; [done|]. split; [done|]. by apply suffix_cons_r.
        -- rewrite Hfs. exists true. by rewrite lookup_insert_eq.
      * congruence.
      * apply os_mkdir_raise in H3 as [_ Hcase].
        destruct Hcase as [[_ [? ?]]|[(_ & _ & (x' & up'' & Heq & _ & Hf))|(_ & _ & Hnd')]].
        -- congruence.
        -- simplify_eq.
        -- destruct (Hnd' x (y :: up')); [done..|]. by exists true.
Qed.

Lemma keeps_is_dir I p : keeps I (Path.is_dir p).
Proof. intros w r w' HI [= <- <-]. done. Qed.

Lemma fs_only_is_dir p : fs_only (Path.is_dir p).
Proof.
  intros w t r w' Hfs [= <- <-]. exists t. unfold Path.is_dir. by rewrite Hfs.
Qed.

(** What the [except OSError] clause of [mkdir] does. *)
Lemma keeps_mkdir_handler I exist_ok p e :
  keeps I (d <- Path.is_dir p ;; if negb exist_ok || negb d then raise e else ret tt).
Proof.
  apply keeps_bind; [apply keeps_is_dir|]. intros d.
  destruct (negb exist_ok || negb d); [apply keeps_raise|apply keeps_ret].
Qed.

Lemma fs_only_mkdir_handler exist_ok p e :
  fs_only (d <- Path.is_dir p ;; if negb exist_ok || negb d then raise e else ret tt).
Proof.
  apply fs_only_bind; [apply fs_only_is_dir|]. intros d.
  destruct (negb exist_ok || negb d); [apply fs_only_raise|apply fs_only_ret].
Qed.

Lemma keeps_mkdir_flat I exist_ok p : grows I → keeps I (Path.mkdir_flat exist_ok p).
Proof.
  intros HI. apply keeps_try; [by apply keeps_os_mkdir|].
  intros []; first [apply keeps_raise|apply keeps_mkdir_handler].
Qed.

Lemma fs_only_mkdir_flat exist_ok p : fs_only (Path.mkdir_flat exist_ok p).
Proof.
  apply fs_only_try; [apply fs_only_os_mkdir|].
  intros []; first [apply fs_only_raise|apply fs_only_mkdir_handler].
Qed.

Lemma keeps_mkdir I parents exist_ok p :
  grows I → keeps I (Path.mkdir parents exist_ok p).
Proof.
  intros HI. revert parents exist_ok.
  induction p as [|x up IH]; intros parents exist_ok; rewrite mkdir_unfold.
  all: apply keeps_try; [by apply keeps_os_mkdir|].
  all: intros []; try apply keeps_raise; try apply keeps_mkdir_handler.
  destruct up as [|y up']; [apply keeps_raise|].
  destruct parents; [|apply keeps_raise].
  apply keeps_bind; [apply IH|]. intros _. by apply keeps_mkdir_flat.
Qed.

Lemma fs_only_mkdir parents exist_ok p : fs_only (Path.mkdir parents exist_ok p).
Proof.
  revert parents exist_ok.
  induction p as [|x up IH]; intros parents exist_ok; rewrite mkdir_unfold.
  all: apply fs_only_try; [by apply fs_only_os_mkdir|].
  all: intros []; try apply fs_only_raise; try apply fs_only_mkdir_handler.
  destruct up as [|y up']; [apply fs_only_raise|].
  destruct parents; [|apply fs_only_raise].
  apply fs_only_bind; [apply IH|]. intros _. apply fs_only_mkdir_flat.
Qed.

(** What raised once raises again on the same tree. *)
Lemma fs_only_raise_again {A} (c : M A) w e t :
  fs_only c → c w = (Raise e, w) → fs t = fs w →
  ∃ t', c t = (Raise e, t') ∧ fs t' = fs t.
Proof.
  intros Hc H Ht. destruct (Hc w t _ _ (eq_sym Ht) H) as (t' & Ht' & Hfs).
  exists t'. split; [done|congruence].
Qed.

Lemma rerunnable_mkdir p : rerunnable (Path.mkdir true true p).
Proof.
  intros w r w' H. pose proof (mkdir_inv _ _ _ _ H) as (_ & Hadd & Hr).
  split; [by eapply only_adds_dirs_subseteq|].
  destruct r as [[]|e].
  - intros t Ht. exists t. split; [|done].
    apply mkdir_settled. by eapply is_dir_in_mono.
  - subst w'. intros t Ht.
    by eapply fs_only_raise_again; [apply fs_only_mkdir|..].
Qed.

Lemma rerunnable_mkdir_flat p : rerunnable (Path.mkdir_flat true p).
Proof.
  intros w r w' H.
  pose proof H as [[-> H1]|[(-> & -> & Hd)|(e & -> & -> & H1 & _)]]%mkdir_flat_inv.
  - apply os_mkdir_ok in H1 as (x & up & -> & _ & Hp & _ & Hfs & _).
    split; [rewrite Hfs; by apply insert_subseteq|].
    intros t Ht. exists t. split; [|done]. apply mkdir_flat_settled.
    eapply is_dir_in_mono; [done|]. rewrite Hfs. exists true.
    by rewrite lookup_insert_eq.
  - split; [done|]. intros t Ht. exists t. split; [|done].
    apply mkdir_flat_settled. by eapply is_dir_in_mono.
  - split; [done|]. intros t Ht.
    by eapply fs_only_raise_again; [apply fs_only_mkdir_flat|..].
Qed.

(** ** [Path.touch] *)

Lemma touch_absent p w : fs w !! p = None → Path.touch p w = os.open_creat p w.
Proof. intros Hp. unfold Path.touch, os.utime. by rewrite Hp. Qed.

(** On a file that is there, [touch] would set the time: a file whose
    time is what it was has not been touched. *)
Lemma touch_sets_the_time p w c t :
  fs w !! p = Some (File c t) →
  Path.touch p w =
  (Ok tt, World (<[p := File c (clock w)]> (fs w)) (S (clock w)) (stdout w)).
Proof. intros Hp. unfold Path.touch, os.utime. by rewrite Hp. Qed.

Lemma open_creat_absent p w r w' :
  fs w !! p = None → os.open_creat p w = (r, w') →
  (r = Ok tt ∧ ∃ x up, p = x :: up ∧ up ≠ [] ∧
     fs w !! up = Some (Dir true) ∧
     fs w' = <[p := File "" (clock w)]> (fs w) ∧ stdout w' = stdout w) ∨
  (∃ e, r = Raise e ∧ w' = w ∧
     ∀ t, fs t = fs w → os.open_creat p t = (Raise e, t)).
Proof.
  intros Hp. unfold os.open_creat. rewrite Hp.
  destruct p as [|x [|y up]]; intros H.
  1,2: right; simplify_eq; eexists; split; [done|]; split; [done|];
       intros t ->; by rewrite Hp.
  destruct (fs w !! (y :: up)) as [[[]|]|] eqn:Hup; simplify_eq.
  1: left; split; [done|]; by exists x, (y :: up).
  all: right; eexists; split; [done|]; split; [done|];
       intros t ->; by rewrite Hp, Hup.
Qed.

(** ** The two loop bodies *)

Section Bodies.

Variable base_path : path.
Variable project_name : string.

Local Abbreviation P := (project_path base_path project_name).
Local Abbreviation directory_step := (make_directory base_path project_name).
Local Abbreviation file_step := (make_file base_path project_name).

Lemma make_directory_inv d w r w' :
  directory_step d w = (r, w') →
  ∃ w1, Path.mkdir_flat true (P // d) w = (r, w1) ∧
    match r with
    | Ok _ => is_dir_in (fs w') (P // d) ∧
              w' = World (fs w1) (clock w1) (stdout w ++ [dir_line d])
    | Raise _ => w' = w ∧ w1 = w
    end.
Proof.
  unfold make_directory. intros H.
  apply bind_inv in H as [([] & w1 & H1 & H2)|(e & H1 & ->)].
  - rewrite mkdir_noparents in H1. exists w1.
    rewrite print_eq in H2. simplify_eq. split; [done|]. simpl.
    pose proof H1 as [[_ H3]|[(_ & -> & Hd)|(e & ? & _)]]%mkdir_flat_inv; [| |done].
    + apply os_mkdir_ok in H3 as (x & up & Heq & _ & _ & _ & Hfs & ->).
      split; [|done]. rewrite Hfs, Heq. exists true. by rewrite lookup_insert_eq.
    + done.
  - rewrite mkdir_noparents in H1. exists w'. split; [done|].
    by apply mkdir_flat_inv in H1 as [[? _]|[(? & _)|(e' & _ & -> & _)]].
Qed.

Lemma keeps_make_directory I d : grows I → keeps I (directory_step d).
Proof.
  intros HI. apply keeps_bind; [by apply keeps_mkdir|].
  intros _. apply keeps_print.
Qed.

Lemma rerunnable_make_directory d : rerunnable (directory_step d).
Proof.
  apply rerunnable_bind; [|intros _; apply rerunnable_print].
  intros w r w' H. rewrite mkdir_noparents in H.
  destruct (rerunnable_mkdir_flat _ _ _ _ H) as [Hsub Hre]. split; [done|].
  destruct r; intros t Ht; rewrite mkdir_noparents; by apply Hre.
Qed.

(** The four ways the body of the file loop can end: the parent chain
    cannot be made; the file is there; the file is made; the file
    cannot be made. *)
Lemma make_file_inv f w r w' :
  file_step f w = (r, w') →
  ∃ r1 w1, Path.mkdir true true (PurePath.parent (P // f)) w = (r1, w1) ∧
  ( (∃ e, r1 = Raise e ∧ r = Raise e ∧ w' = w1)
  ∨ (r1 = Ok tt ∧ is_Some (fs w1 !! (P // f)) ∧ r = Ok tt ∧
       w' = World (fs w1) (clock w1) (stdout w1 ++ [present_line f]))
  ∨ (r1 = Ok tt ∧ fs w1 !! (P // f) = None ∧ r = Ok tt ∧
       ∃ w2, os.open_creat (P // f) w1 = (Ok tt, w2) ∧
         w' = World (fs w2) (clock w2) (stdout w2 ++ [created_line f]))
  ∨ (r1 = Ok tt ∧ fs w1 !! (P // f) = None ∧ w' = w1 ∧
       ∃ e, r = Raise e ∧ os.open_creat (P // f) w1 = (Raise e, w1)) ).
Proof.
  unfold make_file. intros H.
  apply bind_inv in H as [([] & w1 & H1 & H2)|(e & H1 & ->)].
  2:{ exists (Raise e), w'. split; [done|]. left. by exists e. }
  exists (Ok tt), w1. split; [done|]. right.
  destruct (fs w1 !! (P // f)) as [n|] eqn:Hf.
  - left. unfold bind in H2. rewrite exists_true in H2 by (by rewrite Hf).
    simpl in H2. rewrite print_eq in H2. by simplify_eq.
  - right. unfold bind in H2. rewrite exists_false in H2 by done.
    simpl in H2. rewrite touch_absent in H2 by done.
    destruct (os.open_creat (P // f) w1) as [[[]|e] w2] eqn:Ho.
    + left. rewrite print_eq in H2. simplify_eq. repeat (split; [done|]).
      by exists w2.
    + right. simplify_eq. repeat (split; [done|]).
      destruct (open_creat_absent _ _ _ _ Hf Ho) as [[? _]|(e' & ? & -> & _)]; [done|].
      split; [done|]. by exists e.
Qed.

Lemma keeps_make_file I f : grows I → keeps I (file_step f).
Proof.
  intros HI w r w' Hw H.
  apply make_file_inv in H as (r1 & w1 & H1 & Hcase).
  pose proof (keeps_mkdir I _ _ _ HI _ _ _ Hw H1) as Hw1.
  destruct Hcase as [(e & _ & _ & ->)|[(_ & _ & _ & ->)|
    [(_ & Hf & _ & w2 & Ho & ->)|(_ & _ & -> & _)]]]; try done.
  destruct (open_creat_absent _ _ _ _ Hf Ho)
    as [(_ & x & up & Heq & Hne & Hup & Hfs & _)|(? & ? & _)]; [|done].
  simpl. rewrite Hfs. rewrite Heq in *. by apply HI.
Qed.

Lemma rerunnable_make_file f : rerunnable (file_step f).
Proof.
  intros w r w' H.
  apply make_file_inv in H as (r1 & w1 & H1 & Hcase).
  destruct (rerunnable_mkdir _ _ _ _ H1) as [Hsub Hre].
  destruct Hcase as [(e & -> & -> & ->)|[(-> & Hf & -> & ->)|
    [(-> & Hf & -> & w2 & Ho & ->)|(-> & Hf & -> & e & -> & Ho)]]].
  - split; [done|]. intros t Ht. destruct (Hre t Ht) as (t' & Ht' & Hfs).
    exists t'. unfold make_file. by rewrite (bind_raise _ _ _ _ _ Ht').
  - split; [done|]. simpl. intros t Ht.
    destruct (Hre t Ht) as (t' & Ht' & Hfs).
    eexists. unfold make_file. rewrite (bind_ok _ _ _ _ _ Ht').
    unfold bind. rewrite exists_true; [simpl; rewrite print_eq; done|].
    rewrite Hfs. by eapply lookup_weaken_is_Some.
  - destruct (open_creat_absent _ _ _ _ Hf Ho)
      as [(_ & x & up & Heq & Hne & Hup & Hfs & _)|(? & ? & _)]; [|done].
    assert (fs w1 ⊆ fs w2) by (rewrite Hfs; by apply insert_subseteq).
    split; [by etrans|]. simpl. intros t Ht.
    destruct (Hre t) as (t' & Ht' & Hfs'); [by etrans|].
    eexists. unfold make_file. rewrite (bind_ok _ _ _ _ _ Ht').
    unfold bind. rewrite exists_true; [simpl; rewrite print_eq; done|].
    rewrite Hfs'. eapply lookup_weaken_is_Some; [|done].
    rewrite Hfs, lookup_insert_eq. by eexists.
  - split; [done|]. intros t Ht.
    destruct (Hre t) as (t' & Ht' & Hfs'); [by rewrite Ht|].
    exists t'. unfold make_file. rewrite (bind_ok _ _ _ _ _ Ht').
    unfold bind. rewrite exists_false by congruence. simpl.
    rewrite touch_absent by congruence.
    destruct (open_creat_absent _ _ _ _ Hf Ho) as [[? _]|(e' & ? & _ & Hagain)]; [done|].
    simplify_eq. rewrite (Hagain t') by congruence. done.
Qed.

End Bodies.

(** ** Well-formed trees *)

Lemma wf_fs_check (m : gmap path node) :
  m !! [] = None → map_Forall (λ p _, wf_entry m p = true) m → wf_fs m.
Proof.
  intros Hnil Hall. split; [done|]. intros x up n Hne Hl.
  specialize (Hall _ _ Hl). unfold wf_entry in Hall. unfold is_dir_in.
  destruct up as [|y up]; [done|].
  destruct (m !! (y :: up)) as [[b|]|]; [by exists b|done..].
Qed.

(** ** Two properties of trees that survive a new entry *)

Lemma grows_wf_fs : grows wf_fs.
Proof.
  intros m x up n [Hnil Hwf] Hne Hp Hup. split.
  { by rewrite lookup_insert_ne. }
  intros y up' n' Hne' Hl.
  destruct (decide (y :: up' = x :: up)) as [Heq|Hneq].
  - simplify_eq. exists true.
    rewrite lookup_insert_ne; [done|]. intros Heq.
    apply (f_equal (@List.length string)) in Heq. simpl in Heq. lia.
  - rewrite lookup_insert_ne in Hl by done.
    destruct (Hwf _ _ _ Hne' Hl) as [b Hb]. exists b.
    rewrite lookup_insert_ne; [done|]. intros <-. congruence.
Qed.

Lemma grows_above (m0 : gmap path node) : grows (λ m, m0 ⊆ m).
Proof.
  intros m x up n Hsub Hne Hp Hup. etrans; [exact Hsub|].
  by apply insert_subseteq.
Qed.

(** ** The body of [create_project_structure] *)

Section Create.

Variable base_path : path.
Variable project_name : string.
Variables directories files : list string.

Local Abbreviation P := (project_path base_path project_name).
Local Abbreviation directory_step := (make_directory base_path project_name).
Local Abbreviation file_step := (make_file base_path project_name).
Local Abbreviation body := (create_body base_path project_name directories files).
Local Abbreviation create :=
  (create_project_structure base_path project_name directories files).

Lemma keeps_create_body I : grows I → keeps I body.
Proof.
  intros HI. unfold create_body.
  apply keeps_bind; [apply keeps_print|intros _].
  apply keeps_bind; [apply keeps_mkdir; exact HI|intros _].
  apply keeps_bind; [apply keeps_print|intros _].
  apply keeps_bind;
    [apply keeps_for_each; intros d; apply keeps_make_directory; exact HI|intros _].
  apply keeps_bind; [apply keeps_print|intros _].
  apply keeps_bind;
    [apply keeps_for_each; intros f; apply keeps_make_file; exact HI|intros _].
  apply keeps_bind; [apply keeps_for_each; intros l; apply keeps_print|intros _].
  apply keeps_ret.
Qed.

Lemma rerunnable_create_body : rerunnable body.
Proof.
  unfold create_body.
  apply rerunnable_bind; [apply rerunnable_print|intros _].
  apply rerunnable_bind; [apply rerunnable_mkdir|intros _].
  apply rerunnable_bind; [apply rerunnable_print|intros _].
  apply rerunnable_bind;
    [apply rerunnable_for_each; intros d; apply rerunnable_make_directory|intros _].
  apply rerunnable_bind; [apply rerunnable_print|intros _].
  apply rerunnable_bind;
    [apply rerunnable_for_each; intros f; apply rerunnable_make_file|intros _].
  apply rerunnable_bind;
    [apply rerunnable_for_each; intros l; apply rerunnable_print|intros _].
  apply rerunnable_ret.
Qed.

(** The three [except] clauses print and give [False]. *)
Lemma create_handler_eq e w :
  create_handler base_path e w = (Ok false, printed (error_lines base_path e) w).
Proof.
  destruct e; unfold create_handler, bind, printed, error_lines;
    rewrite !print_eq; cbn [fs clock stdout]; rewrite <- ?app_assoc;
    reflexivity.
Qed.

Lemma keeps_create I : grows I → keeps I create.
Proof.
  intros HI. apply keeps_try; [by apply keeps_create_body|].
  intros e w r w' Hw. rewrite create_handler_eq. by intros [= <- <-].
Qed.

(** The first loop, when it goes through. *)
Lemma directories_loop_ok ds : ∀ w w',
  for_each ds directory_step w = (Ok tt, w') →
  fs w ⊆ fs w' ∧
  (∀ d, d ∈ ds → is_dir_in (fs w') (P // d)) ∧
  stdout w' = stdout w ++ map dir_line ds.
Proof.
  induction ds as [|d ds IH]; intros w w' H; simpl in H.
  - unfold ret in H. simplify_eq. rewrite app_nil_r.
    split; [done|]. split; [|done]. intros d Hd. by apply elem_of_nil in Hd.
  - apply bind_inv in H as [([] & w1 & H1 & H2)|(e & _ & ?)]; [|done].
    pose proof (keeps_make_directory base_path project_name _ d
                  (grows_above (fs w)) w _ _ (reflexivity _) H1) as Hsub1.
    apply make_directory_inv in H1 as (w0 & _ & Hd1 & ->).
    apply IH in H2 as (Hsub2 & Hds & Hout). simpl in *.
    split; [by etrans|]. split.
    + intros d' [->|Hin]%elem_of_cons; [|by apply Hds].
      by eapply is_dir_in_mono.
    + rewrite Hout, <- app_assoc. done.
Qed.

Lemma file_report_weaken (m m' : gmap path node) f l :
  m ⊆ m' → file_report base_path project_name m' f l →
  file_report base_path project_name m f l.
Proof.
  intros Hsub [->|[Hn ->]]; [by left|right]. split; [|done].
  by eapply lookup_weaken_None.
Qed.

(** The second loop, when it goes through. *)
Lemma files_loop_ok fl : ∀ w w',
  for_each fl file_step w = (Ok tt, w') →
  fs w ⊆ fs w' ∧
  (∀ f, f ∈ fl → is_Some (fs w' !! (P // f)) ∧
                 is_dir_in (fs w') (PurePath.parent (P // f))) ∧
  ∃ lines, stdout w' = stdout w ++ lines ∧
    Forall2 (file_report base_path project_name (fs w)) fl lines.
Proof.
  induction fl as [|f fl IH]; intros w w' H; simpl in H.
  - unfold ret in H. simplify_eq.
    split; [done|]. split; [intros f Hf; by apply elem_of_nil in Hf|].
    exists []. by rewrite app_nil_r.
  - apply bind_inv in H as [([] & w1 & H1 & H2)|(e & _ & ?)]; [|done].
    pose proof (keeps_make_file base_path project_name _ f
                  (grows_above (fs w)) w _ _ (reflexivity _) H1) as Hsub1.
    apply IH in H2 as (Hsub2 & Hfl & lines & Hout & Hrep).
    apply make_file_inv in H1 as (r1 & w0 & H0 & Hcase).
    pose proof (mkdir_inv _ _ _ _ H0) as (Hout0 & Hadd0 & Hr0).
    assert (∃ l, stdout w1 = stdout w ++ [l] ∧
                 file_report base_path project_name (fs w) f l ∧
                 is_Some (fs w1 !! (P // f)) ∧
                 is_dir_in (fs w1) (PurePath.parent (P // f)))
      as (l & Hout1 & Hrep1 & Hf1 & Hd1).
    { destruct Hcase as [(e & _ & ? & _)|[(-> & Hf & _ & ->)|
        [(-> & Hf & _ & w2 & Ho & ->)|(_ & _ & _ & e & ? & _)]]]; try done.
      - exists (present_line f). simpl. rewrite Hout0.
        split; [done|]. split; [by left|]. done.
      - destruct (open_creat_absent _ _ _ _ Hf Ho)
          as [(_ & x & up & Heq & Hne & Hup & Hfs & Hout2)|(? & ? & _)]; [|done].
        exists (created_line f). simpl. rewrite Hout2, Hout0.
        split; [done|]. split; [|split].
        + right. split; [|done].
          eapply lookup_weaken_None; [exact Hf|].
          by eapply only_adds_dirs_subseteq.
        + rewrite Hfs, lookup_insert_eq. by eexists.
        + eapply is_dir_in_mono; [|exact Hr0]. rewrite Hfs.
          by apply insert_subseteq. }
    split; [by etrans|]. split.
    + intros f' [->|Hin]%elem_of_cons; [|by apply Hfl]. split.
      * by eapply lookup_weaken_is_Some.
      * by eapply is_dir_in_mono.
    + exists (l :: lines). split.
      * rewrite Hout, Hout1, <- app_assoc. done.
      * constructor; [done|].
        eapply Forall2_impl; [exact Hrep|]. intros f' l'.
        by apply file_report_weaken.
Qed.

(** A run of the body that goes through: it returns [True], took
    nothing away, left everything declared in place, and printed the
    report. *)
Lemma create_body_ok w b w' :
  body w = (Ok b, w') →
  b = true ∧ fs w ⊆ fs w' ∧
  complete base_path project_name directories files (fs w') ∧
  ∃ lines,
    stdout w' = stdout w ++ report_lines base_path project_name directories lines ∧
    Forall2 (file_report base_path project_name (fs w)) files lines.
Proof.
  intros H.
  pose proof (keeps_create_body _ (grows_above (fs w)) w _ _ (reflexivity _) H)
    as Hsub.
  unfold create_body in H.
  apply bind_inv in H as [([] & w1 & H1 & H)|(e & _ & ?)]; [|done].
  rewrite print_eq in H1. injection H1 as <-.
  apply bind_inv in H as [([] & w2 & H2 & H)|(e & _ & ?)]; [|done].
  apply mkdir_inv in H2 as (Hout2 & Hsub2%only_adds_dirs_subseteq & HdP).
  cbn [fs clock stdout] in *.
  apply bind_inv in H as [([] & w3 & H3 & H)|(e & _ & ?)]; [|done].
  rewrite print_eq in H3. injection H3 as <-.
  apply bind_inv in H as [([] & w4 & H4 & H)|(e & _ & ?)]; [|done].
  apply directories_loop_ok in H4 as (Hsub4 & Hds & Hout4).
  cbn [fs clock stdout] in *.
  apply bind_inv in H as [([] & w5 & H5 & H)|(e & _ & ?)]; [|done].
  rewrite print_eq in H5. injection H5 as <-.
  apply bind_inv in H as [([] & w6 & H6 & H)|(e & _ & ?)]; [|done].
  apply files_loop_ok in H6 as (Hsub6 & Hfl & lines & Hout6 & Hrep).
  cbn [fs clock stdout] in *.
  apply bind_inv in H as [([] & w7 & H7 & H)|(e & _ & ?)]; [|done].
  rewrite for_each_print in H7. injection H7 as <-.
  unfold ret in H. injection H as <- <-. cbn [fs clock stdout] in *.
  split; [done|]. split; [done|]. split.
  - split; [|split].
    + eapply is_dir_in_mono; [|exact HdP]. by etrans.
    + intros d Hd. eapply is_dir_in_mono; [exact Hsub6|]. by apply Hds.
    + done.
  - exists lines. split.
    + rewrite Hout6, Hout4, Hout2. unfold report_lines.
      rewrite <- !app_assoc. reflexivity.
    + eapply Forall2_impl; [exact Hrep|]. intros f l.
      apply file_report_weaken. etrans; [exact Hsub2|exact Hsub4].
Qed.

Lemma printed_printed ls1 ls2 w :
  printed ls2 (printed ls1 w) = printed (ls1 ++ ls2) w.
Proof. unfold printed. cbn [fs clock stdout]. by rewrite <- app_assoc. Qed.

Lemma make_directory_settled d w :
  is_dir_in (fs w) (P // d) →
  directory_step d w = (Ok tt, printed [dir_line d] w).
Proof.
  intros Hd. unfold make_directory, bind.
  rewrite mkdir_noparents, mkdir_flat_settled by done. apply print_eq.
Qed.

Lemma make_file_settled f w :
  is_dir_in (fs w) (PurePath.parent (P // f)) → is_Some (fs w !! (P // f)) →
  file_step f w = (Ok tt, printed [present_line f] w).
Proof.
  intros Hd Hf. unfold make_file, bind.
  rewrite mkdir_settled, exists_true by done. apply print_eq.
Qed.

Lemma directories_loop_settled ds : ∀ w,
  (∀ d, d ∈ ds → is_dir_in (fs w) (P // d)) →
  for_each ds directory_step w = (Ok tt, printed (map dir_line ds) w).
Proof.
  induction ds as [|d ds IH]; intros w Hds; simpl.
  - unfold ret, printed. rewrite app_nil_r. by destruct w.
  - unfold bind. rewrite make_directory_settled by (apply Hds; by left).
    rewrite IH by (intros d' Hd'; apply Hds; by right).
    by rewrite printed_printed.
Qed.

Lemma files_loop_settled fl : ∀ w,
  (∀ f, f ∈ fl → is_Some (fs w !! (P // f)) ∧
                 is_dir_in (fs w) (PurePath.parent (P // f))) →
  for_each fl file_step w = (Ok tt, printed (map present_line fl) w).
Proof.
  induction fl as [|f fl IH]; intros w Hfl; simpl.
  - unfold ret, printed. rewrite app_nil_r. by destruct w.
  - unfold bind. destruct (Hfl f) as [Hf Hd]; [by left|].
    rewrite make_file_settled by done.
    rewrite IH by (intros f' Hf'; apply Hfl; by right).
    by rewrite printed_printed.
Qed.

(** On a tree where everything declared is in place the body goes
    through, changes nothing and reports every file as present. *)
Lemma create_body_complete w :
  complete base_path project_name directories files (fs w) →
  body w = (Ok true,
            printed (report_lines base_path project_name directories
                       (map present_line files)) w).
Proof.
  intros (HdP & Hds & Hfl). unfold create_body, bind.
  rewrite print_eq, mkdir_settled by done.
  rewrite print_eq, directories_loop_settled by done.
  rewrite print_eq, files_loop_settled by done.
  rewrite for_each_print. unfold ret, printed, report_lines.
  cbn [fs clock stdout]. rewrite <- !app_assoc. reflexivity.
Qed.

(** What [create_project_structure] gives, from what its body gives. *)
Lemma create_of_body_ok w b w' :
  body w = (Ok b, w') → create w = (Ok b, w').
Proof. unfold create_project_structure, try_except. by intros ->. Qed.

Lemma create_of_body_raise w e w' :
  body w = (Raise e, w') →
  create w = (Ok false, printed (error_lines base_path e) w').
Proof.
  unfold create_project_structure, try_except. intros ->.
  apply create_handler_eq.
Qed.

End Create.

(** ** [verify_structure] and the entry point *)

Lemma printed_nil w : printed [] w = w.
Proof. unfold printed. rewrite app_nil_r. by destruct w. Qed.

Lemma verify_loop_eq p items : ∀ all_good w,
  verify_loop p items all_good w =
  (Ok (all_good && forallb (item_present (fs w) p) items),
   printed (map (status_line (fs w) p) items) w).
Proof.
  induction items as [|item items IH]; intros all_good w; simpl.
  - unfold ret. by rewrite andb_true_r, printed_nil.
  - unfold bind, Path.exists_, status_line, item_present at 1 3.
    destruct (bool_decide (is_Some (fs w !! (p // item)))).
    + rewrite print_eq, IH. cbn [fs clock stdout].
      f_equal. apply printed_printed with (ls1 := [found_line item]).
    + rewrite print_eq, IH. cbn [fs clock stdout].
      rewrite andb_false_r. f_equal.
      apply printed_printed with (ls1 := [missing_line item]).
Qed.

Lemma verify_structure_eq expected_items p w :
  verify_structure expected_items p w =
  (Ok (forallb (item_present (fs w) p) expected_items),
   printed (verify_lines (fs w) p expected_items) w).
Proof.
  unfold verify_structure, bind. rewrite print_eq, verify_loop_eq.
  cbn [fs clock stdout]. f_equal.
  apply printed_printed with (ls1 := [Str.nl +:+ "🔍 Überprüfe erstellte Struktur..."]).
Qed.

Section Main.

Variable base_path : path.
Variable project_name : string.
Variables directories files : list string.
Variable expected_items : list string.
Variable main_project_path : path.

Local Abbreviation body := (create_body base_path project_name directories files).
Local Abbreviation create :=
  (create_project_structure base_path project_name directories files).
Local Abbreviation go :=
  (run base_path project_name directories files expected_items main_project_path).

(** The entry point, in terms of what [create_project_structure] gives
    after the banner. *)
Lemma run_eq w :
  go w =
  match create (printed banner_lines w) with
  | (Ok true, w1) =>
      (0, printed [done_line]
            (printed (verify_lines (fs w1) main_project_path expected_items) w1))
  | (Ok false, w1) => (1, printed [failed_line] w1)
  | (Raise _, w1) => (1, w1)
  end.
Proof.
  unfold run, main, bind. rewrite !print_eq. cbn [fs clock stdout].
  change (World (fs w) (clock w) ((stdout w ++ [_]) ++ [_]))
    with (printed [Str.repeat_string "=" 50]
           (printed ["🏗️  RFID-QR-App Projektstruktur Generator"] w)).
  rewrite printed_printed.
  change (["🏗️  RFID-QR-App Projektstruktur Generator"] ++ [Str.repeat_string "=" 50])
    with banner_lines.
  destruct (create (printed banner_lines w)) as [[[]|e] w1]; [| |done].
  - rewrite verify_structure_eq, print_eq. reflexivity.
  - rewrite print_eq. reflexivity.
Qed.

End Main.

(** ** A file in the way *)

(** In a well-formed tree everything above an entry is a directory. *)
Lemma wf_fs_above (m : gmap path node) (k q : path) n :
  wf_fs m → m !! (k ++ q) = Some n → k ≠ [] → q ≠ [] → is_dir_in m q.
Proof.
  intros [_ Hwf] Hl Hk Hq. revert n Hl Hk.
  induction k as [|x k IH]; intros n Hl Hk; [done|].
  destruct k as [|y k].
  - by eapply Hwf.
  - destruct (Hwf x ((y :: k) ++ q) n) as [b Hb]; [done|exact Hl|].
    by eapply IH.
Qed.

(** Below a file there is nothing. *)
Lemma wf_fs_below_file (m : gmap path node) (k q : path) c t :
  wf_fs m → m !! q = Some (File c t) → k ≠ [] → m !! (k ++ q) = None.
Proof.
  intros Hwf Hq Hk. destruct (m !! (k ++ q)) as [n|] eqn:Hl; [|done].
  assert (q ≠ []) by (intros ->; destruct Hwf; congruence).
  destruct (wf_fs_above _ _ _ _ Hwf Hl Hk) as [b Hb]; [done|congruence].
Qed.

(** [mkdir(parents=True, exist_ok=True)] of a path with a file on its
    way raises [FileExistsError] for that file and makes nothing. *)
Lemma mkdir_conflict p : ∀ w q c t,
  wf_fs (fs w) → q `suffix_of` p → fs w !! q = Some (File c t) →
  Path.mkdir true true p w = (Raise (FileExistsError q), w).
Proof.
  induction p as [|x up IH]; intros w q c t Hwf Hsuf Hq.
  { apply suffix_nil_inv in Hsuf as ->. destruct Hwf. congruence. }
  assert (Hnd : ¬ is_dir_in (fs w) q) by (intros [b Hb]; congruence).
  assert (Hq0 : q ≠ []) by (intros ->; destruct Hwf; congruence).
  rewrite mkdir_unfold. unfold try_except.
  destruct Hsuf as [k Hk]. destruct k as [|x' k]; simpl in Hk.
  - (* the file is at the path itself *)
    subst q. unfold os.mkdir. rewrite Hq. unfold bind.
    by rewrite (is_dir_false _ _ Hnd).
  - (* the file is above *)
    injection Hk as <- ->.
    assert (Hp : fs w !! (x :: k ++ q) = None)
      by (by apply (wf_fs_below_file _ (x :: k) q c t)).
    assert (Hup : fs w !! (k ++ q) = None ∨ fs w !! (k ++ q) = Some (File c t)).
    { destruct k as [|y k]; [by right|left].
      by apply (wf_fs_below_file _ (y :: k) q c t). }
    unfold os.mkdir. rewrite Hp.
    destruct (k ++ q) as [|y up'] eqn:Hkq.
    { by destruct k. }
    assert (Hrec : Path.mkdir true true (y :: up') w
                   = (Raise (FileExistsError q), w)).
    { apply (IH w q c t Hwf); [|done]. exists k. done. }
    destruct Hup as [->| ->]; unfold bind; by rewrite Hrec.
Qed.

Section Conflict.

Variable base_path : path.
Variable project_name : string.
Variables directories files : list string.

Local Abbreviation P := (project_path base_path project_name).
Local Abbreviation file_step := (make_file base_path project_name).
Local Abbreviation body := (create_body base_path project_name directories files).
Local Abbreviation until := (create_until base_path project_name directories).

Lemma make_file_conflict f w q c t :
  wf_fs (fs w) → q `suffix_of` PurePath.parent (P // f) →
  fs w !! q = Some (File c t) →
  file_step f w = (Raise (FileExistsError q), w).
Proof.
  intros Hwf Hsuf Hq. unfold make_file, bind.
  by rewrite (mkdir_conflict _ _ _ _ _ Hwf Hsuf Hq).
Qed.

Lemma keeps_create_until I pre : grows I → keeps I (until pre).
Proof.
  intros HI. unfold create_until.
  apply keeps_bind; [apply keeps_print|intros _].
  apply keeps_bind; [apply keeps_mkdir; exact HI|intros _].
  apply keeps_bind; [apply keeps_print|intros _].
  apply keeps_bind;
    [apply keeps_for_each; intros d; apply keeps_make_directory; exact HI|intros _].
  apply keeps_bind; [apply keeps_print|intros _].
  apply keeps_for_each; intros f; apply keeps_make_file; exact HI.
Qed.

(** The body is what runs until a file, then the step of that file,
    then the rest. *)
Lemma create_body_split pre f post w :
  files = pre ++ f :: post →
  body w =
  (until pre ;; file_step f ;; for_each post file_step ;;
   for_each (closing_lines base_path project_name) print ;; ret true) w.
Proof.
  intros ->. unfold create_body, create_until, bind.
  rewrite !print_eq.
  destruct (Path.mkdir true true P _) as [[[]|e2] w2]; [|reflexivity].
  rewrite !print_eq.
  destruct (for_each directories _ _) as [[[]|e4] w4]; [|reflexivity].
  rewrite !print_eq, for_each_app. unfold bind.
  destruct (for_each pre _ _) as [[[]|e6] w6]; [|reflexivity].
  cbn [for_each]. unfold bind.
  destruct (file_step f w6) as [[[]|e7] w7]; reflexivity.
Qed.

End Conflict.

(** ** Making the missing directories *)

Lemma parent_cons (p : path) :
  PurePath.parent p ≠ p → ∃ x, p = x :: PurePath.parent p ∧ PurePath.parent p ≠ [].
Proof.
  destruct p as [|x [|y up]]; [done..|]. intros _. by exists x.
Qed.

Lemma can_make_absent (m : gmap path node) (p : path) : can_make m p → m !! p = None.
Proof. destruct p as [|x [|y up]]; [done..|]. by intros [? _]. Qed.

Lemma can_make_nonempty (m : gmap path node) (p : path) : can_make m p → p ≠ [].
Proof. by destruct p. Qed.

(** A chain that can be made is made. *)
Lemma mkdir_can_make p : ∀ w,
  can_make (fs w) p →
  ∃ w', Path.mkdir true true p w = (Ok tt, w') ∧
        fs w' !! p = Some (Dir true).
Proof.
  induction p as [|x up IH]; intros w Hcm; [done|].
  destruct up as [|y up']; [done|]. destruct Hcm as [Hp [Hup|Hcm]].
  - rewrite mkdir_unfold. unfold try_except, os.mkdir. rewrite Hp, Hup.
    eexists. split; [reflexivity|]. cbn [fs tick set_fs].
    by rewrite lookup_insert_eq.
  - pose proof (can_make_absent _ _ Hcm) as Hup.
    destruct (IH w Hcm) as (w1 & H1 & Hup1).
    pose proof (mkdir_inv _ _ _ _ H1) as (_ & Hadd & _).
    assert (Hp1 : fs w1 !! (x :: y :: up') = None).
    { destruct (Hadd (x :: y :: up')) as [Heq|(_ & _ & Hsuf)]; [congruence|].
      by apply not_suffix_of_cons in Hsuf. }
    rewrite mkdir_unfold. unfold try_except, os.mkdir at 1. rewrite Hp, Hup.
    unfold bind. rewrite H1.
    unfold Path.mkdir_flat, try_except, os.mkdir. rewrite Hp1, Hup1.
    eexists. split; [reflexivity|]. cbn [fs tick set_fs].
    by rewrite lookup_insert_eq.
Qed.

(** Everything above a directory of a well-formed tree is a directory. *)
Lemma chain_of_dirs (m : gmap path node) (p q : path) :
  wf_fs m → is_dir_in m p → q `suffix_of` p → q ≠ [] → is_dir_in m q.
Proof.
  intros Hwf [b Hb] [k ->] Hq. destruct k as [|x k]; [by exists b|].
  by eapply (wf_fs_above _ (x :: k)).
Qed.

(** A path at or below the writable directory [P], with only writable
    directories on the way from [P], is such a directory or can be
    made. *)
Lemma chain_ready (m : gmap path node) (P : path) : ∀ p : path,
  P ≠ [] → m !! P = Some (Dir true) → P `suffix_of` p →
  (∀ q n, P `suffix_of` q → q `suffix_of` p → m !! q = Some n → n = Dir true) →
  m !! p = Some (Dir true) ∨ can_make m p.
Proof.
  intros p HP0 HP. induction p as [|x up IH]; intros Hsuf Hall.
  { by apply suffix_nil_inv in Hsuf. }
  destruct (m !! (x :: up)) as [n|] eqn:Hp.
  { left. f_equal. by apply (Hall (x :: up)). }
  right.
  assert (Hsuf' : P `suffix_of` up).
  { destruct Hsuf as [k Hk]. destruct k as [|x' k]; simpl in Hk.
    - congruence.
    - injection Hk as _ ->. by exists k. }
  destruct up as [|y up'].
  { by apply suffix_nil_inv in Hsuf'. }
  split; [done|]. destruct IH as [?|?]; [done| |by left|by right].
  intros q n HPq Hq. apply Hall; [done|]. by apply suffix_cons_r.
Qed.

Section Fresh.

Variable base_path : path.
Variable project_name : string.
Variables directories files : list string.

Local Abbreviation P := (project_path base_path project_name).
Local Abbreviation directory_step := (make_directory base_path project_name).
Local Abbreviation file_step := (make_file base_path project_name).

Lemma tidy_below_nonempty (allowed : list string) (m : gmap path node) : tidy_below P allowed m → P ≠ [].
Proof. intros ([Hnil _] & HP & _) Heq. rewrite Heq in HP. congruence. Qed.

Lemma tidy_below_allow (allowed : list string) (m : gmap path node) :
  tidy_below P [] m → tidy_below P allowed m.
Proof.
  intros (Hwf & HP & Hall). split; [done|]. split; [done|].
  intros q n Hq Hn. destruct (Hall q n Hq Hn) as [?|(g & _ & _ & Hg & _)]; [by left|].
  by apply elem_of_nil in Hg.
Qed.

(** Once the chain of the project directory is made, the tree is tidy
    below it. *)
Lemma tidy_below_fresh w w' :
  wf_fs (fs w) → can_make (fs w) P →
  Path.mkdir true true P w = (Ok tt, w') →
  tidy_below P [] (fs w').
Proof.
  intros Hwf Hcm H.
  pose proof (can_make_absent _ _ Hcm) as HP.
  pose proof (can_make_nonempty _ _ Hcm) as HP0.
  pose proof (keeps_mkdir _ _ _ _ grows_wf_fs _ _ _ Hwf H) as Hwf'.
  pose proof (mkdir_inv _ _ _ _ H) as (_ & Hadd & [b Hb]).
  assert (HP' : fs w' !! P = Some (Dir true)).
  { destruct (Hadd P) as [Heq|(_ & ? & _)]; [congruence|done]. }
  split; [done|]. split; [done|].
  intros q n [k ->] Hn. left.
  destruct (Hadd (k ++ P)) as [Heq|(_ & Hq & _)]; [|congruence].
  rewrite Heq in Hn. destruct k as [|x k]; [simpl in Hn; congruence|].
  destruct (wf_fs_above _ (x :: k) P n Hwf Hn) as [b' Hb']; [done..|congruence].
Qed.

Lemma directory_step_tidy d w :
  tidy_below P [] (fs w) →
  PurePath.parent (P // d) = P → P // d ≠ P →
  ∃ w', directory_step d w = (Ok tt, w') ∧ tidy_below P [] (fs w').
Proof.
  intros Htidy Hpar Hne.
  pose proof Htidy as (Hwf & HP & Hall).
  destruct (parent_cons (P // d)) as (x & Hx & HP0); [congruence|].
  rewrite Hpar in Hx, HP0.
  destruct (fs w !! (P // d)) as [n|] eqn:Hd.
  - (* it is there: a directory *)
    destruct (Hall (P // d) n) as [->|(g & _ & _ & Hg & _)];
      [rewrite Hx; by apply suffix_cons_r|done| |by apply elem_of_nil in Hg].
    rewrite make_directory_settled by (by exists true).
    eexists. split; [reflexivity|]. exact Htidy.
  - (* it is made *)
    unfold make_directory, bind. rewrite mkdir_noparents.
    unfold Path.mkdir_flat, try_except, os.mkdir. rewrite Hd.
    rewrite Hx in *. destruct P as [|y P'] eqn:HPeq; [done|].
    rewrite HP, print_eq. eexists. split; [reflexivity|].
    cbn [fs tick set_fs]. split; [|split].
    + by apply grows_wf_fs.
    + rewrite lookup_insert_ne; [done|]. intros Heq.
      apply (f_equal (@List.length string)) in Heq. simpl in Heq. lia.
    + intros q n Hq Hn. destruct (decide (q = x :: y :: P')) as [->|Hqne].
      * rewrite lookup_insert_eq in Hn. left. congruence.
      * rewrite lookup_insert_ne in Hn by done. by apply Hall.
Qed.

Lemma directories_loop_tidy ds : ∀ w,
  tidy_below P [] (fs w) →
  (∀ d, d ∈ ds → PurePath.parent (P // d) = P ∧ P // d ≠ P) →
  ∃ w', for_each ds directory_step w = (Ok tt, w') ∧ tidy_below P [] (fs w').
Proof.
  induction ds as [|d ds IH]; intros w Htidy Hds.
  - exists w. done.
  - destruct (Hds d) as [Hpar Hne]; [by left|].
    destruct (directory_step_tidy d w Htidy Hpar Hne) as (w1 & H1 & Htidy1).
    destruct (IH w1 Htidy1) as (w' & H' & Htidy'); [intros d' Hd'; apply Hds; by right|].
    exists w'. split; [|done]. cbn [for_each]. unfold bind. by rewrite H1.
Qed.

Lemma file_step_tidy f w :
  tidy_below P files (fs w) → f ∈ files →
  P `suffix_of` PurePath.parent (P // f) → PurePath.parent (P // f) ≠ P // f →
  (∀ g, g ∈ files → ¬ (P // g) `suffix_of` PurePath.parent (P // f)) →
  ∃ w', file_step f w = (Ok tt, w') ∧ tidy_below P files (fs w').
Proof.
  intros Htidy Hf Hsuf Hne Hclear.
  pose proof (tidy_below_nonempty _ _ Htidy) as HP0.
  pose proof Htidy as (Hwf & HP & Hall).
  destruct (parent_cons (P // f) Hne) as (x & Hx & Hpar0).
  set (par := PurePath.parent (P // f)) in *.
  (* the parent chain is made, or is there *)
  assert (∃ w1, Path.mkdir true true par w = (Ok tt, w1) ∧
                fs w1 !! par = Some (Dir true) ∧
                tidy_below P files (fs w1)) as (w1 & H1 & Hpar1 & Htidy1).
  { assert (Hready : fs w !! par = Some (Dir true) ∨ can_make (fs w) par).
    { apply (chain_ready _ P); [done..|].
      intros q n HPq Hq Hn.
      destruct (Hall q n HPq Hn) as [?|(g & c & t & Hg & -> & _)]; [done|].
      by destruct (Hclear g Hg). }
    assert (∃ w1, Path.mkdir true true par w = (Ok tt, w1) ∧
                  fs w1 !! par = Some (Dir true)) as (w1 & H1 & Hpar1).
    { destruct Hready as [Hd|Hcm].
      - exists w. split; [|done]. apply mkdir_settled. by exists true.
      - by apply mkdir_can_make. }
    exists w1. split; [done|]. split; [done|].
    pose proof (mkdir_inv _ _ _ _ H1) as (_ & Hadd & _).
    split; [|split].
    - exact (keeps_mkdir _ _ _ _ grows_wf_fs _ _ _ Hwf H1).
    - eapply lookup_weaken; [exact HP|]. by eapply only_adds_dirs_subseteq.
    - intros q n HPq Hn. destruct (Hadd q) as [Heq|(_ & Hq & _)].
      + rewrite Heq in Hn. by apply Hall.
      + left. congruence. }
  pose proof Htidy1 as (Hwf1 & HP1 & Hall1).
  unfold make_file, bind. fold par. rewrite H1.
  destruct (fs w1 !! (P // f)) as [n|] eqn:Hfile.
  - (* the file is there *)
    rewrite exists_true by (by rewrite Hfile). cbn [negb].
    rewrite print_eq. eexists. split; [reflexivity|]. exact Htidy1.
  - (* the file is made *)
    rewrite exists_false by done. cbn [negb].
    rewrite touch_absent by done. unfold os.open_creat. rewrite Hfile.
    rewrite Hx in Hfile |- *.
    destruct par as [|y par'] eqn:Hpareq; [done|]. rewrite Hpar1, print_eq.
    eexists. split; [reflexivity|]. cbn [fs tick set_fs].
    split; [|split].
    + by apply grows_wf_fs.
    + rewrite lookup_insert_ne; [done|]. intros Heq.
      rewrite <- Heq in Hsuf. by apply not_suffix_of_cons in Hsuf.
    + intros q n Hq Hn. destruct (decide (q = x :: y :: par')) as [->|Hqne].
      * rewrite lookup_insert_eq in Hn. right.
        exists f, "", (clock w1). split; [done|]. split; [|congruence].
        by rewrite Hx.
      * rewrite lookup_insert_ne in Hn by done. by apply Hall1.
Qed.

Lemma files_loop_tidy fl : ∀ w,
  tidy_below P files (fs w) →
  (∀ f, f ∈ fl → f ∈ files) →
  (∀ f, f ∈ fl → P `suffix_of` PurePath.parent (P // f) ∧
                 PurePath.parent (P // f) ≠ P // f) →
  (∀ f g, f ∈ fl → g ∈ files →
          ¬ (P // g) `suffix_of` PurePath.parent (P // f)) →
  ∃ w', for_each fl file_step w = (Ok tt, w') ∧ tidy_below P files (fs w').
Proof.
  induction fl as [|f fl IH]; intros w Htidy Hin Hbelow Hclear.
  - exists w. done.
  - destruct (Hbelow f) as [Hsuf Hne]; [by left|].
    destruct (file_step_tidy f w Htidy) as (w1 & H1 & Htidy1);
      [apply Hin; by left|done|done|intros g Hg; apply Hclear; [by left|done]|].
    destruct (IH w1 Htidy1) as (w' & H' & Htidy').
    + intros f' Hf'. apply Hin. by right.
    + intros f' Hf'. apply Hbelow. by right.
    + intros f' g Hf' Hg. apply Hclear; [by right|done].
    + exists w'. split; [|done]. cbn [for_each]. unfold bind. by rewrite H1.
Qed.

End Fresh.

(** ** The script on a standard output that can refuse a line *)

Lemma pair_result {X Y} (p : X * Y) r : p.1 = r → p = (r, p.2).
Proof. intros <-. by destruct p. Qed.

Lemma console_bind_inv {A B} (c : Console.C A) (k : A → Console.C B) w r w' :
  Console.bind c k w = (r, w') →
  (∃ a w1, c w = (Console.Done a, w1) ∧ k a w1 = (r, w')) ∨
  (∃ e, c w = (Console.Failed e, w') ∧ r = Console.Failed e).
Proof.
  unfold Console.bind. destruct (c w) as [[a|e] w1]; intros H.
  - left. eauto.
  - right. exists e. by simplify_eq.
Qed.

Lemma console_try_inv {A} (c : Console.C A) h w r w' :
  Console.try_except c h w = (r, w') →
  (∃ a, c w = (Console.Done a, w') ∧ r = Console.Done a) ∨
  (∃ e w1, c w = (Console.Failed e, w1) ∧ h e w1 = (r, w')).
Proof.
  unfold Console.try_except. destruct (c w) as [[a|e] w1]; intros H.
  - left. exists a. by simplify_eq.
  - right. eauto.
Qed.

Lemma console_print_inv refuses s w r w' :
  Console.print refuses s w = (r, w') →
  (refuses s = None ∧ r = Console.Done tt ∧
   w' = World (fs w) (clock w) (stdout w ++ [s])) ∨
  (∃ message, refuses s = Some message ∧
     r = Console.Failed (Console.UnicodeEncodeError message) ∧ w' = w).
Proof.
  unfold Console.print. destruct (refuses s) as [message|]; intros [= <- <-].
  - right. by exists message.
  - by left.
Qed.

Section ConsoleCreate.

Variable refuses : string → option string.
Variable base_path : path.
Variable project_name : string.
Variables directories files : list string.

(** The [try] block ends in [return True]. *)
Lemma console_body_returns_true w b w' :
  Console.create_body refuses base_path project_name directories files w
    = (Console.Done b, w') →
  b = true.
Proof.
  unfold Console.create_body. intros H.
  repeat (apply console_bind_inv in H as [([] & ? & _ & H)|(? & _ & ?)];
          [|done]).
  unfold Console.ret in H. by injection H as <- _.
Qed.

Lemma console_print_then ls s (k : Console.C bool) w r w' :
  (∀ w1 r1 w2, k w1 = (r1, w2) → Console.handled refuses ls r1) →
  Console.bind (Console.print refuses s) (λ _, k) w = (r, w') →
  Console.handled refuses (s :: ls) r.
Proof.
  intros Hk Hb.
  apply console_bind_inv in Hb as [([] & w1 & H1 & H2)|(e1 & H1 & ->)].
  - specialize (Hk _ _ _ H2). destruct r as [b|err]; [done|].
    destruct Hk as (line & message & Hin & Hr & ->).
    exists line, message. split; [by right|done].
  - apply console_print_inv in H1 as [(_ & ? & _)|(message & Hr & [= ->] & _)];
      [done|].
    exists s, message. split; [by left|done].
Qed.

Lemma console_ret_false w r w' :
  Console.ret false w = (r, w') → Console.handled refuses [] r.
Proof. by intros [= <- <-]. Qed.

(** An [except] clause returns [False], or one of its prints raises. *)
Lemma console_handler_inv e w r w' :
  Console.create_handler refuses base_path e w = (r, w') →
  match r with
  | Console.Done b => b = false
  | Console.Failed err =>
      ∃ line message,
        line ∈ Console.handler_lines base_path e ∧
        refuses line = Some message ∧
        err = Console.UnicodeEncodeError message
  end.
Proof.
  intros H. change (Console.handled refuses (Console.handler_lines base_path e) r).
  destruct e as [[p|p|p]|m]; unfold Console.create_handler in H;
    unfold Console.handler_lines.
  - eapply console_print_then; [|exact H]. intros w1 r1 w2 H1.
    eapply console_print_then; [|exact H1]. apply console_ret_false.
  - eapply console_print_then; [|exact H]. apply console_ret_false.
  - eapply console_print_then; [|exact H]. apply console_ret_false.
  - eapply console_print_then; [|exact H]. apply console_ret_false.
Qed.

End ConsoleCreate.

(** *** When standard output takes every line *)

Section SameAs.
Context {A B : Type}.

Lemma same_as_ret (a : A) : same_as (Console.ret a) (ret a).
Proof. by intros w. Qed.

Lemma same_as_lift (c : M A) : same_as (Console.lift c) c.
Proof. by intros w. Qed.

Lemma same_as_bind (c' : Console.C A) (c : M A)
    (k' : A → Console.C B) (k : A → M B) :
  same_as c' c → (∀ a, same_as (k' a) (k a)) →
  same_as (Console.bind c' k') (bind c k).
Proof.
  intros Hc Hk w. unfold Console.bind, bind. rewrite Hc.
  unfold Console.lift. destruct (c w) as [[a|e] w1]; [|done].
  exact (Hk a w1).
Qed.

End SameAs.

Lemma same_as_try {A} (c' : Console.C A) (c : M A) h' h :
  same_as c' c → (∀ e, same_as (h' (Console.OSError e)) (h e)) →
  same_as (Console.try_except c' h') (try_except c h).
Proof.
  intros Hc Hh w. unfold Console.try_except, try_except. rewrite Hc.
  unfold Console.lift. destruct (c w) as [[a|e] w1]; [done|].
  exact (Hh e w1).
Qed.

Lemma same_as_for_each {A} (xs : list A) body' body :
  (∀ x, same_as (body' x) (body x)) →
  same_as (Console.for_each xs body') (for_each xs body).
Proof.
  intros Hb. induction xs as [|x xs IH]; simpl.
  - apply same_as_ret.
  - apply same_as_bind; [apply Hb|]. intros _. exact IH.
Qed.

Section TakesAll.

Variable refuses : string → option string.
Hypothesis takes_every_line : ∀ line, refuses line = None.

Variable base_path : path.
Variable project_name : string.
Variables directories files : list string.

Lemma same_as_print s : same_as (Console.print refuses s) (print s).
Proof. intros w. unfold Console.print. by rewrite takes_every_line. Qed.

Lemma same_as_create_body :
  same_as (Console.create_body refuses base_path project_name directories files)
          (create_body base_path project_name directories files).
Proof.
  unfold Console.create_body, create_body.
  apply same_as_bind; [apply same_as_print|intros _].
  apply same_as_bind; [apply same_as_lift|intros _].
  apply same_as_bind; [apply same_as_print|intros _].
  apply same_as_bind; [|intros _].
  { apply same_as_for_each. intros d.
    apply same_as_bind; [apply same_as_lift|intros _]. apply same_as_print. }
  apply same_as_bind; [apply same_as_print|intros _].
  apply same_as_bind; [|intros _].
  { apply same_as_for_each. intros f.
    apply same_as_bind; [apply same_as_lift|intros _].
    apply same_as_bind; [apply same_as_lift|intros present].
    destruct (negb present); [|apply same_as_print].
    apply same_as_bind; [apply same_as_lift|intros _]. apply same_as_print. }
  apply same_as_bind;
    [apply same_as_for_each; intros l; apply same_as_print|intros _].
  apply same_as_ret.
Qed.

Lemma same_as_create_handler e :
  same_as (Console.create_handler refuses base_path (Console.OSError e))
          (create_handler base_path e).
Proof.
  destruct e; unfold Console.create_handler, create_handler.
  - apply same_as_bind; [apply same_as_print|intros _].
    apply same_as_bind; [apply same_as_print|intros _]. apply same_as_ret.
  - apply same_as_bind; [apply same_as_print|intros _]. apply same_as_ret.
  - apply same_as_bind; [apply same_as_print|intros _]. apply same_as_ret.
Qed.

Lemma same_as_create :
  same_as
    (Console.create_project_structure refuses base_path project_name
       directories files)
    (create_project_structure base_path project_name directories files).
Proof.
  apply same_as_try; [apply same_as_create_body|apply same_as_create_handler].
Qed.

End TakesAll.

(** * The properties of the specification *)

Section Specification.

Variable base_path : path.
Variable project_name : string.
Variables directories files : list string.
Variable expected_items : list string.
Variable main_project_path : path.

(** C6, as amended.  [verify_structure] looks at the items of its list
    in the order of the list and changes nothing.  It builds no list of
    records: for each item it prints one line, in that order, the item
    after a check mark when its path is there and the item between a
    cross and [- FEHLT!] when it is not; what it returns is the flag
    alone, [True] exactly when every item is there. *)
Theorem verify_reports_each_item_in_order project_path w :
  verify_structure expected_items project_path w =
  (Ok (forallb
         (λ item, bool_decide (is_Some (fs w !! (project_path // item))))
         expected_items),
   World (fs w) (clock w)
     (stdout w ++
        (Str.nl +:+ "🔍 Überprüfe erstellte Struktur...")
          :: map (λ item,
                    if bool_decide (is_Some (fs w !! (project_path // item)))
                    then "  ✓ " +:+ item
                    else "  ❌ " +:+ item +:+ " - FEHLT!")
                 expected_items)).
Proof. exact (verify_structure_eq expected_items project_path w). Qed.

(** C10, as amended.  [create_project_structure] lets no exception of
    its [try] block through, be it the error of a file call or of a
    [print]: it returns [True] when the block went through, and
    [False] when the block raised and the [except] clause that caught
    the exception printed its lines.  An exception leaves
    [create_project_structure] only when a [print] inside that
    [except] clause raises; it is then the error of that [print].  On
    a standard output that takes every line no exception leaves, and
    [create_project_structure] returns what it returns where [print]
    cannot fail. *)
Theorem only_a_print_in_an_except_clause_leaves_create
    (refuses : string → option string) w :
  (∀ r w',
     Console.create_project_structure refuses base_path project_name
       directories files w = (r, w') →
     match r with
     | Console.Done true =>
         Console.create_body refuses base_path project_name directories
           files w = (Console.Done true, w')
     | Console.Done false =>
         ∃ e w1,
           Console.create_body refuses base_path project_name directories
             files w = (Console.Failed e, w1) ∧
           Console.create_handler refuses base_path e w1
             = (Console.Done false, w')
     | Console.Failed err =>
         ∃ e w1 line message,
           Console.create_body refuses base_path project_name directories
             files w = (Console.Failed e, w1) ∧
           Console.create_handler refuses base_path e w1
             = (Console.Failed err, w') ∧
           line ∈ Console.handler_lines base_path e ∧
           refuses line = Some message ∧
           err = Console.UnicodeEncodeError message
     end) ∧
  ((∀ line, refuses line = None) →
   ∃ b w',
     Console.create_project_structure refuses base_path project_name
       directories files w = (Console.Done b, w') ∧
     create_project_structure base_path project_name directories files w
       = (Ok b, w')).
Proof.
  split.
  - intros r w' H.
    apply console_try_inv in H as [(b & Hb & ->)|(e & w1 & Hb & Hh)].
    + pose proof (console_body_returns_true _ _ _ _ _ _ _ _ Hb) as ->.
      exact Hb.
    + pose proof (console_handler_inv _ _ _ _ _ _ Hh) as Hr.
      destruct r as [b|err].
      * simpl in Hr. subst b. by exists e, w1.
      * destruct Hr as (line & message & Hin & Href & ->).
        by exists e, w1, line, message.
  - intros Hall.
    pose proof (same_as_create refuses Hall base_path project_name
                  directories files w) as Hsame.
    unfold Console.lift in Hsame.
    destruct (create_project_structure base_path project_name directories
                files w) as [[b|e] w'] eqn:Hc.
    + by exists b, w'.
    + destruct (create_body base_path project_name directories files w)
        as [[b|e'] w1] eqn:Hb.
      * by rewrite (create_of_body_ok _ _ _ _ _ _ _ Hb) in Hc.
      * by rewrite (create_of_body_raise _ _ _ _ _ _ _ Hb) in Hc.
Qed.

(** C3.  After [create_project_structure] has returned [True],
    [verify_structure], run under the same project path on a list of
    items that [create_project_structure] declares, finds every item
    present and returns [True]. *)
Theorem verify_after_create_finds_everything w w' :
  (∀ item, item ∈ expected_items → item ∈ directories ++ files) →
  create_project_structure base_path project_name directories files w
    = (Ok true, w') →
  verify_structure expected_items (project_path base_path project_name) w' =
  (Ok true,
   printed ((Str.nl +:+ "🔍 Überprüfe erstellte Struktur...")
              :: map found_line expected_items) w').
Proof.
  intros Hitems Hc.
  assert (Hb : create_body base_path project_name directories files w
               = (Ok true, w')).
  { destruct (create_body base_path project_name directories files w)
      as [[b|e] w1] eqn:H.
    - by rewrite (create_of_body_ok _ _ _ _ _ _ _ H) in Hc.
    - by rewrite (create_of_body_raise _ _ _ _ _ _ _ H) in Hc. }
  apply create_body_ok in Hb as (_ & _ & (HdP & Hds & Hfl) & _).
  assert (Hall : ∀ item, item ∈ expected_items →
    item_present (fs w') (project_path base_path project_name) item = true).
  { intros item Hin. unfold item_present. apply bool_decide_eq_true_2.
    apply Hitems in Hin. apply elem_of_app in Hin as [Hd|Hf].
    - destruct (Hds _ Hd) as [b Hb]. by eexists.
    - by apply Hfl. }
  rewrite verify_structure_eq. f_equal.
  - f_equal. apply forallb_forall. intros item Hin. apply Hall.
    by apply list_elem_of_In.
  - unfold verify_lines. f_equal. f_equal. apply map_ext_in.
    intros item Hin. unfold status_line. rewrite Hall; [done|].
    by apply list_elem_of_In.
Qed.

(** C4.  An exception the body raises, whichever of the three, ends
    the run: it is caught in [create_project_structure], its message
    is printed, nothing more is done to the tree (the world is the one
    at the raise, with the message and the closing line printed after
    it) and the exit status is 1.  The exit status is 0 exactly when
    the body went through. *)
Theorem exceptions_end_the_run w :
  (∀ e w1,
     create_body base_path project_name directories files
       (printed banner_lines w) = (Raise e, w1) →
     run base_path project_name directories files expected_items
       main_project_path w
     = (1, printed (error_lines base_path e ++ [failed_line]) w1) ∧
     error_lines base_path e ≠ []) ∧
  ((run base_path project_name directories files expected_items
      main_project_path w).1 = 0 ↔
   ∃ w1, create_body base_path project_name directories files
           (printed banner_lines w) = (Ok true, w1)).
Proof.
  split.
  - intros e w1 H. split; [|by destruct e].
    rewrite run_eq, (create_of_body_raise _ _ _ _ _ _ _ H).
    by rewrite printed_printed.
  - rewrite run_eq.
    destruct (create_body base_path project_name directories files
                (printed banner_lines w)) as [[b|e] w1] eqn:H.
    + pose proof (create_body_ok _ _ _ _ _ _ _ H) as (-> & _).
      rewrite (create_of_body_ok _ _ _ _ _ _ _ H). split; [by eexists|done].
    + rewrite (create_of_body_raise _ _ _ _ _ _ _ H). split; [done|].
      by intros (w2 & ?).
Qed.

(** C8.  When [create_project_structure] has returned [True], the exit
    status is 0 and the closing success line is printed last, whatever
    [verify_structure] returned: its flag is not looked at. *)
Theorem exit_status_ignores_verify w w1 all_good w2 :
  create_project_structure base_path project_name directories files
    (printed banner_lines w) = (Ok true, w1) →
  verify_structure expected_items main_project_path w1 = (Ok all_good, w2) →
  run base_path project_name directories files expected_items
    main_project_path w
  = (0, printed [done_line] w2).
Proof.
  intros Hc Hv. rewrite run_eq, Hc.
  rewrite verify_structure_eq in Hv. by injection Hv as _ <-.
Qed.

(** C1, as amended.  Running [create_project_structure] a second time
    right after the first leaves the tree as the first run left it and
    returns what the first run returned.  When the first run returned
    [True], it printed for every declared directory the line
    [dir_line], and the second run prints for every declared directory
    that same line again (there is no other line for a directory) and
    for every declared file the line that reports it as present. *)
Theorem create_twice_is_create_once w r1 w1 :
  create_project_structure base_path project_name directories files w
    = (r1, w1) →
  ∃ w2,
    create_project_structure base_path project_name directories files w1
      = (r1, w2) ∧
    fs w2 = fs w1 ∧
    (r1 = Ok true →
       (∃ lines,
          stdout w1 =
            stdout w ++
            report_lines base_path project_name directories lines) ∧
       stdout w2 =
         stdout w1 ++
         report_lines base_path project_name directories
           (map present_line files)).
Proof.
  intros Hc.
  destruct (create_body base_path project_name directories files w)
    as [[b|e] wb] eqn:H.
  - pose proof (create_body_ok _ _ _ _ _ _ _ H)
      as (-> & _ & Hcomplete & lines & Hout & _).
    rewrite (create_of_body_ok _ _ _ _ _ _ _ H) in Hc. injection Hc as <- <-.
    pose proof (create_body_complete _ _ _ _ _ Hcomplete) as H2.
    eexists. split; [by apply create_of_body_ok|].
    split; [done|]. intros _. split; [by exists lines|done].
  - rewrite (create_of_body_raise _ _ _ _ _ _ _ H) in Hc. injection Hc as <- <-.
    destruct (rerunnable_create_body _ _ _ _ _ _ _ H) as [_ Hre].
    destruct (Hre (printed (error_lines base_path e) wb)) as (t' & Ht' & Hfs);
      [done|].
    eexists. split; [by apply create_of_body_raise|].
    split; [exact Hfs|]. done.
Qed.

(** C2.  A declared file that is there before
    [create_project_structure] runs is the same after it, contents and
    time of last change, whatever the outcome: it is not written,
    not truncated and not touched.  When the run returns [True], the
    line printed for it in the file loop is the one that reports it as
    present. *)
Theorem existing_file_is_left_alone w file_path (n : node) r w' :
  file_path ∈ files →
  fs w !! (project_path base_path project_name // file_path) = Some n →
  create_project_structure base_path project_name directories files w
    = (r, w') →
  fs w' !! (project_path base_path project_name // file_path) = Some n ∧
  (r = Ok true →
     ∃ lines,
       stdout w' =
         stdout w ++ report_lines base_path project_name directories lines ∧
       List.length lines = List.length files ∧
       ∀ i, files !! i = Some file_path →
            lines !! i = Some (present_line file_path)).
Proof.
  intros Hin Hn Hc. split.
  - eapply lookup_weaken; [exact Hn|].
    exact (keeps_create _ _ _ _ _ (grows_above (fs w)) w _ _ (reflexivity _) Hc).
  - intros ->.
    assert (Hb : create_body base_path project_name directories files w
                 = (Ok true, w')).
    { destruct (create_body base_path project_name directories files w)
      as [[b|e] w1] eqn:H.
      - by rewrite (create_of_body_ok _ _ _ _ _ _ _ H) in Hc.
      - by rewrite (create_of_body_raise _ _ _ _ _ _ _ H) in Hc. }
    apply create_body_ok in Hb as (_ & _ & _ & lines & Hout & Hrep).
    exists lines. split; [done|]. split.
    + symmetry. by eapply Forall2_length.
    + intros i Hi.
      destruct (Forall2_lookup_l _ _ _ _ _ Hrep Hi) as (l & Hl & Hfr).
      rewrite Hl. f_equal. destruct Hfr as [->|[Hnone _]]; [done|congruence].
Qed.

(** C5.  When the run arrives at a declared file (everything before
    it went through) and a directory the file has to sit in, its
    parent or a directory further up, is there as a file [q], then
    [create_project_structure] catches [FileExistsError] for [q],
    prints it and returns [False], and the exit status is 1.  Nothing
    is rolled back: the tree is left as it was when the run arrived at
    that file, with all that the steps before had made, and with all
    that was there before the run. *)
Theorem path_conflict_aborts_and_keeps_earlier_items
    w pre file_path post w1 q c t :
  files = pre ++ file_path :: post →
  wf_fs (fs w) →
  create_until base_path project_name directories pre (printed banner_lines w)
    = (Ok tt, w1) →
  q `suffix_of`
    PurePath.parent (project_path base_path project_name // file_path) →
  fs w1 !! q = Some (File c t) →
  create_project_structure base_path project_name directories files
    (printed banner_lines w)
  = (Ok false, printed ["❌ Fehler: " +:+ str_exn (FileExistsError q)] w1) ∧
  run base_path project_name directories files expected_items
    main_project_path w
  = (1, printed ["❌ Fehler: " +:+ str_exn (FileExistsError q); failed_line]
          w1) ∧
  fs w ⊆ fs w1.
Proof.
  intros Hfiles Hwf Hu Hsuf Hq.
  assert (Hwf1 : wf_fs (fs w1)).
  { exact (keeps_create_until _ _ _ _ _ grows_wf_fs
             (printed banner_lines w) _ _ Hwf Hu). }
  assert (Hsub : fs w ⊆ fs w1).
  { exact (keeps_create_until _ _ _ _ _ (grows_above (fs w))
             (printed banner_lines w) _ _ (reflexivity _) Hu). }
  assert (Hb : create_body base_path project_name directories files
                 (printed banner_lines w)
               = (Raise (FileExistsError q), w1)).
  { rewrite (create_body_split _ _ _ _ _ _ _ _ Hfiles). unfold bind at 1.
    rewrite Hu. unfold bind at 1.
    by rewrite (make_file_conflict _ _ _ _ _ _ _ Hwf1 Hsuf Hq). }
  pose proof (create_of_body_raise _ _ _ _ _ _ _ Hb) as Hc.
  split; [exact Hc|]. split; [|exact Hsub].
  rewrite run_eq, Hc. by rewrite printed_printed.
Qed.

(** C7.  On a well-formed tree where the project directory is not
    there but can be made (going up from it, the first directory that
    exists is writable), and with a layout whose directories sit
    directly in the project directory, whose files sit below it and
    where no file is in the way of another, [create_project_structure]
    returns [True]: the whole chain of directories down to the project
    directory is made, and so is, for every declared file, the chain
    of directories down to its parent, before the file itself. *)
Theorem create_makes_missing_parents w :
  wf_fs (fs w) →
  can_make (fs w) (project_path base_path project_name) →
  (∀ d, d ∈ directories →
     PurePath.parent (project_path base_path project_name // d)
       = project_path base_path project_name ∧
     project_path base_path project_name // d
       ≠ project_path base_path project_name) →
  (∀ f, f ∈ files →
     project_path base_path project_name `suffix_of`
       PurePath.parent (project_path base_path project_name // f) ∧
     PurePath.parent (project_path base_path project_name // f)
       ≠ project_path base_path project_name // f) →
  (∀ f g, f ∈ files → g ∈ files →
     ¬ (project_path base_path project_name // g) `suffix_of`
         PurePath.parent (project_path base_path project_name // f)) →
  ∃ w',
    create_project_structure base_path project_name directories files w
      = (Ok true, w') ∧
    (∀ q, q `suffix_of` project_path base_path project_name → q ≠ [] →
          is_dir_in (fs w') q) ∧
    (∀ d, d ∈ directories →
          is_dir_in (fs w') (project_path base_path project_name // d)) ∧
    (∀ f, f ∈ files →
       is_Some (fs w' !! (project_path base_path project_name // f)) ∧
       ∀ q, q `suffix_of`
              PurePath.parent (project_path base_path project_name // f) →
            q ≠ [] → is_dir_in (fs w') q).
Proof.
  intros Hwf Hcm Hdirs Hbelow Hclear.
  set (P := project_path base_path project_name) in *.
  assert (∃ w', create_body base_path project_name directories files w
                = (Ok true, w')) as (w' & Hb).
  { unfold create_body, bind. fold P. rewrite print_eq.
    match goal with |- context [Path.mkdir true true P ?w0] =>
      destruct (mkdir_can_make P w0 Hcm) as (w2 & H2 & _);
      pose proof (tidy_below_fresh _ _ w0 w2 Hwf Hcm H2) as Htidy2
    end.
    rewrite H2, print_eq.
    match goal with |- context [for_each directories _ ?w0] =>
      destruct (directories_loop_tidy _ _ directories w0 Htidy2 Hdirs)
        as (w4 & H4 & Htidy4)
    end.
    rewrite H4, print_eq.
    apply (tidy_below_allow _ _ files) in Htidy4.
    match goal with |- context [for_each files _ ?w0] =>
      destruct (files_loop_tidy _ _ files files w0 Htidy4 (λ f Hf, Hf)
                  Hbelow Hclear) as (w6 & H6 & Htidy6)
    end.
    rewrite H6, for_each_print. by eexists. }
  pose proof (keeps_create_body _ _ _ _ _ grows_wf_fs _ _ _ Hwf Hb) as Hwf'.
  pose proof (create_body_ok _ _ _ _ _ _ _ Hb)
    as (_ & _ & (HdP & Hds & Hfl) & _).
  exists w'. split; [by apply create_of_body_ok|].
  split; [|split].
  - intros q Hq Hq0. by apply (chain_of_dirs _ P).
  - exact Hds.
  - intros f Hf. destruct (Hfl f Hf) as [Hsome Hd]. split; [done|].
    intros q Hq Hq0. by eapply chain_of_dirs.
Qed.

End Specification.

(** C9.  The list of [verify_structure] holds the same items as the
    two lists of [create_project_structure] put together, each once,
    and the path the entry point hands to [verify_structure] is the
    project path [create_project_structure] builds. *)
Theorem verify_describes_the_layout_of_create :
  Script.expected_items ≡ₚ Script.directories ++ Script.files ∧
  NoDup Script.expected_items ∧
  Script.main_project_path = Script.project_path.
Proof.
  assert (Hnd : NoDup Script.expected_items)
    by (by apply (bool_decide_unpack _); vm_compute).
  split; [|split; [exact Hnd|reflexivity]].
  apply NoDup_Permutation; [exact Hnd| |].
  - by apply (bool_decide_unpack _); vm_compute.
  - intros x. split; revert x; apply Forall_forall;
      by apply (bool_decide_unpack _); vm_compute.
Qed.

(** ** The properties on concrete worlds *)

(** C1, as it is written, fails.  On a fresh volume the first run makes
    the directory [renderer] and prints [dir_line] for it; the second
    run finds it there and prints the same line again: among the lines
    of the second run there is no line that reports [renderer] as
    present, so not every declared item is reported as present. *)
Lemma second_run_reports_no_directory_as_present :
  let w1 := (Script.create_project_structure Examples.fresh_volume).2 in
  let w2 := (Script.create_project_structure w1).2 in
  let second_run := drop (List.length (stdout w1)) (stdout w2) in
  ¬ (fs w2 = fs w1 ∧
     ∀ item, item ∈ Script.directories ++ Script.files →
             present_line item ∈ second_run) ∧
  fs Examples.fresh_volume !! (Script.project_path // "renderer") = None ∧
  is_dir_in (fs w1) (Script.project_path // "renderer") ∧
  dir_line "renderer" ∈ stdout w1 ∧
  dir_line "renderer" ∈ second_run.
Proof.
  intros w1 w2 second_run.
  assert (Hno : present_line "renderer" ∉ second_run) by by_decision.
  split; [|split; [|split; [|split]]].
  - intros [_ Hall]. apply Hno, Hall. by_decision.
  - by_evaluation.
  - exists true. by_evaluation.
  - by_decision.
  - by_decision.
Qed.

Lemma create_twice_is_create_once_witness :
  ∃ w2,
    Script.create_project_structure
      (Script.create_project_structure Examples.fresh_volume).2 = (Ok true, w2) ∧
    fs w2 = fs (Script.create_project_structure Examples.fresh_volume).2 ∧
    stdout w2 =
      stdout (Script.create_project_structure Examples.fresh_volume).2 ++
      report_lines Script.base_path Script.project_name
        Script.directories (map present_line Script.files).
Proof.
  assert (H1 : (Script.create_project_structure Examples.fresh_volume).1
               = Ok true) by by_evaluation.
  pose proof (create_twice_is_create_once Script.base_path Script.project_name
                Script.directories Script.files Examples.fresh_volume
                (Ok true) _ (run_result _ _ _ H1)) as (w2 & H2 & Hfs & Hout).
  exists w2. split; [exact H2|]. split; [exact Hfs|].
  apply Hout. reflexivity.
Defined.

Lemma existing_file_is_left_alone_witness :
  fs (Script.create_project_structure Examples.with_main_js).2
    !! (Script.project_path // "main.js")
  = Some (File "console.log(1)" 7) ∧
  ∃ lines,
    stdout (Script.create_project_structure Examples.with_main_js).2 =
      stdout Examples.with_main_js ++
      report_lines Script.base_path Script.project_name Script.directories lines ∧
    lines !! 0 = Some (present_line "main.js").
Proof.
  assert (H1 : (Script.create_project_structure Examples.with_main_js).1
               = Ok true) by by_evaluation.
  assert (Hin : "main.js" ∈ Script.files) by by_decision.
  assert (Hn : fs Examples.with_main_js !! (Script.project_path // "main.js")
               = Some (File "console.log(1)" 7)) by by_evaluation.
  pose proof (existing_file_is_left_alone Script.base_path Script.project_name
                Script.directories Script.files Examples.with_main_js
                "main.js" _ (Ok true) _ Hin Hn (run_result _ _ _ H1))
    as [Hkept Hreport].
  split; [exact Hkept|].
  destruct (Hreport eq_refl) as (lines & Hout & _ & Hline).
  exists lines. split; [exact Hout|]. apply Hline. reflexivity.
Defined.

Lemma verify_after_create_finds_everything_witness :
  Script.verify_structure Script.project_path
    (Script.create_project_structure Examples.fresh_volume).2
  = (Ok true,
     printed ((Str.nl +:+ "🔍 Überprüfe erstellte Struktur...")
                :: map found_line Script.expected_items)
       (Script.create_project_structure Examples.fresh_volume).2).
Proof.
  assert (H1 : (Script.create_project_structure Examples.fresh_volume).1
               = Ok true) by by_evaluation.
  assert (Hitems : ∀ item, item ∈ Script.expected_items →
                           item ∈ Script.directories ++ Script.files).
  { apply Forall_forall. by_decision. }
  exact (verify_after_create_finds_everything Script.base_path
           Script.project_name Script.directories Script.files
           Script.expected_items Examples.fresh_volume _ Hitems
           (run_result _ _ _ H1)).
Defined.

(** The three exceptions, each on a world that raises it: a root that
    is not writable, a file where a directory has to be, no volume. *)
Lemma exceptions_end_the_run_witness :
  (∃ w1, Script.run Examples.readonly_volume =
     (1, printed (error_lines Script.base_path
                    (PermissionError ["Users"; "C:\"]) ++ [failed_line]) w1)) ∧
  (∃ w1, Script.run Examples.users_is_a_file =
     (1, printed (error_lines Script.base_path
                    (FileExistsError ["Users"; "C:\"]) ++ [failed_line]) w1)) ∧
  (∃ w1, Script.run Examples.no_volume =
     (1, printed (error_lines Script.base_path
                    (FileNotFoundError ["C:\"]) ++ [failed_line]) w1)).
Proof.
  assert (H1 : (create_body Script.base_path Script.project_name
                  Script.directories Script.files
                  (printed banner_lines Examples.readonly_volume)).1
               = Raise (PermissionError ["Users"; "C:\"])) by by_evaluation.
  assert (H2 : (create_body Script.base_path Script.project_name
                  Script.directories Script.files
                  (printed banner_lines Examples.users_is_a_file)).1
               = Raise (FileExistsError ["Users"; "C:\"])) by by_evaluation.
  assert (H3 : (create_body Script.base_path Script.project_name
                  Script.directories Script.files
                  (printed banner_lines Examples.no_volume)).1
               = Raise (FileNotFoundError ["C:\"])) by by_evaluation.
  split; [|split]; eexists.
  - exact (proj1 (proj1 (exceptions_end_the_run Script.base_path
             Script.project_name Script.directories Script.files
             Script.expected_items Script.main_project_path
             Examples.readonly_volume) _ _ (run_result _ _ _ H1))).
  - exact (proj1 (proj1 (exceptions_end_the_run Script.base_path
             Script.project_name Script.directories Script.files
             Script.expected_items Script.main_project_path
             Examples.users_is_a_file) _ _ (run_result _ _ _ H2))).
  - exact (proj1 (proj1 (exceptions_end_the_run Script.base_path
             Script.project_name Script.directories Script.files
             Script.expected_items Script.main_project_path
             Examples.no_volume) _ _ (run_result _ _ _ H3))).
Defined.

(** The scenario of the specification, with [c] there as a file: the
    run arrives at [c/y.txt] after it made [a], [b] and [a/x.txt]. *)
Lemma path_conflict_aborts_and_keeps_earlier_items_witness :
  let w1 :=
    (create_until Examples.scenario_root Examples.scenario_name
       Examples.scenario_directories ["a/x.txt"]
       (printed banner_lines Examples.scenario_c_is_a_file)).2 in
  run Examples.scenario_root Examples.scenario_name
      Examples.scenario_directories Examples.scenario_files
      Examples.scenario_items Examples.scenario_path
      Examples.scenario_c_is_a_file
  = (1, printed ["❌ Fehler: " +:+ str_exn
                   (FileExistsError ["c"; "root"; "work"; "C:\"]);
                 failed_line] w1) ∧
  fs Examples.scenario_c_is_a_file ⊆ fs w1 ∧
  is_Some (fs w1 !! ["x.txt"; "a"; "root"; "work"; "C:\"]).
Proof.
  intros w1.
  assert (Hwf : wf_fs (fs Examples.scenario_c_is_a_file)).
  { apply wf_fs_check; [by_evaluation|by_decision]. }
  assert (H1 : (create_until Examples.scenario_root Examples.scenario_name
                  Examples.scenario_directories ["a/x.txt"]
                  (printed banner_lines Examples.scenario_c_is_a_file)).1
               = Ok tt) by by_evaluation.
  assert (Hsuf : ["c"; "root"; "work"; "C:\"] `suffix_of`
                 PurePath.parent
                   (project_path Examples.scenario_root Examples.scenario_name
                    // "c/y.txt")) by by_decision.
  assert (Hq : fs w1 !! ["c"; "root"; "work"; "C:\"] = Some (File "" 1))
    by by_evaluation.
  pose proof (path_conflict_aborts_and_keeps_earlier_items
                Examples.scenario_root Examples.scenario_name
                Examples.scenario_directories Examples.scenario_files
                Examples.scenario_items Examples.scenario_path
                Examples.scenario_c_is_a_file ["a/x.txt"] "c/y.txt" [] _ _ _ _
                eq_refl Hwf (run_result _ _ _ H1) Hsuf Hq)
    as (_ & Hrun & Hsub).
  split; [exact Hrun|]. split; [exact Hsub|].
  apply (bool_decide_unpack _). vm_compute. exact I.
Defined.

(** The script on a volume with nothing on it: all seven directories
    down to the project directory are missing. *)
Lemma create_makes_missing_parents_witness :
  ∃ w', Script.create_project_structure Examples.fresh_volume = (Ok true, w') ∧
    (∀ q, q `suffix_of` Script.project_path → q ≠ [] → is_dir_in (fs w') q) ∧
    (∀ d, d ∈ Script.directories → is_dir_in (fs w') (Script.project_path // d)) ∧
    (∀ f, f ∈ Script.files →
       is_Some (fs w' !! (Script.project_path // f)) ∧
       ∀ q, q `suffix_of` PurePath.parent (Script.project_path // f) → q ≠ [] →
            is_dir_in (fs w') q).
Proof.
  apply (create_makes_missing_parents Script.base_path Script.project_name
           Script.directories Script.files Examples.fresh_volume).
  - apply wf_fs_check; [by_evaluation|by_decision].
  - vm_compute.
    repeat (split; [reflexivity|first [left; reflexivity|right]]).
  - apply Forall_forall. by_decision.
  - apply Forall_forall. by_decision.
  - assert (HF : Forall (λ f, Forall (λ g,
        ¬ (project_path Script.base_path Script.project_name // g) `suffix_of`
          PurePath.parent (project_path Script.base_path Script.project_name // f))
        Script.files) Script.files) by by_decision.
    intros f g Hf Hg.
    exact (proj1 (Forall_forall _ _) (proj1 (Forall_forall _ _) HF f Hf) g Hg).
Defined.

(** The script with one more item in the list of [verify_structure]:
    [create_project_structure] returns [True], [verify_structure]
    returns [False], the exit status is 0. *)
Lemma exit_status_ignores_verify_witness :
  (verify_structure Examples.expected_and_more Script.main_project_path
     (Script.create_project_structure
        (printed banner_lines Examples.fresh_volume)).2).1 = Ok false ∧
  run Script.base_path Script.project_name Script.directories Script.files
      Examples.expected_and_more Script.main_project_path Examples.fresh_volume
  = (0, printed [done_line]
          (verify_structure Examples.expected_and_more Script.main_project_path
             (Script.create_project_structure
                (printed banner_lines Examples.fresh_volume)).2).2).
Proof.
  assert (H1 : (Script.create_project_structure
                  (printed banner_lines Examples.fresh_volume)).1 = Ok true)
    by by_evaluation.
  assert (H2 : (verify_structure Examples.expected_and_more
                  Script.main_project_path
                  (Script.create_project_structure
                     (printed banner_lines Examples.fresh_volume)).2).1
               = Ok false) by by_evaluation.
  split; [exact H2|].
  exact (exit_status_ignores_verify Script.base_path Script.project_name
           Script.directories Script.files Examples.expected_and_more
           Script.main_project_path Examples.fresh_volume _ false _
           (run_result _ _ _ H1) (run_result _ _ _ H2)).
Defined.

(** C6, as it is written, fails: what [verify_structure] returns is
    the flag alone, and the flag does not tell which items are there.
    On a volume with nothing on it and on a project that holds only
    [main.js] the script's [verify_structure] returns the same value,
    [False], while the records of the items differ ([main.js] is
    missing in the one and present in the other): no list of (path,
    present or missing) pairs can be read off what is returned. *)
Lemma verify_returns_the_flag_and_no_records :
  ¬ (∃ records_of : result bool → list (string * bool),
       ∀ w, records_of (Script.verify_structure Script.project_path w).1 =
            map (λ item, (item, item_present (fs w) Script.project_path item))
                Script.expected_items) ∧
  (Script.verify_structure Script.project_path Examples.fresh_volume).1
    = Ok false ∧
  (Script.verify_structure Script.project_path Examples.with_main_js).1
    = Ok false ∧
  item_present (fs Examples.fresh_volume) Script.project_path "main.js" = false ∧
  item_present (fs Examples.with_main_js) Script.project_path "main.js" = true.
Proof.
  assert (H1 : (Script.verify_structure Script.project_path
                  Examples.fresh_volume).1 = Ok false) by by_evaluation.
  assert (H2 : (Script.verify_structure Script.project_path
                  Examples.with_main_js).1 = Ok false) by by_evaluation.
  split; [|split; [exact H1|split; [exact H2|split; by_evaluation]]].
  intros [records_of Hrec].
  pose proof (Hrec Examples.fresh_volume) as R1.
  pose proof (Hrec Examples.with_main_js) as R2.
  rewrite H1 in R1. rewrite H2 in R2. rewrite R1 in R2.
  revert R2. by_decision.
Qed.

(** C10, as it is written, fails.  On a standard output with an ASCII
    encoding the script makes its directories down to [renderer],
    then the line with the check mark for [renderer] is refused; the
    last [except] clause catches that error, and the line it prints
    starts with a cross and is refused as well: this second error
    leaves [create_project_structure], which returns no boolean. *)
Lemma a_refused_line_makes_create_raise :
  ¬ (∀ (refuses : string → option string) w,
       ∃ b w',
         Console.create_project_structure refuses Script.base_path
           Script.project_name Script.directories Script.files w
         = (Console.Done b, w')) ∧
  (Console.create_project_structure Console.ascii_only Script.base_path
     Script.project_name Script.directories Script.files
     Examples.fresh_volume).1
  = Console.Failed
      (Console.UnicodeEncodeError
         "'ascii' codec can't encode character: ordinal not in range(128)") ∧
  Console.ascii_only (dir_line "renderer") ≠ None ∧
  is_dir_in
    (fs (Console.create_project_structure Console.ascii_only Script.base_path
           Script.project_name Script.directories Script.files
           Examples.fresh_volume).2)
    (Script.project_path // "renderer").
Proof.
  assert (H1 : (Console.create_project_structure Console.ascii_only
                  Script.base_path Script.project_name Script.directories
                  Script.files Examples.fresh_volume).1
               = Console.Failed
                   (Console.UnicodeEncodeError
                      "'ascii' codec can't encode character: ordinal not in range(128)"))
    by by_evaluation.
  split; [|split; [exact H1|split; [by_decision|exists true; by_evaluation]]].
  intros Hall.
  destruct (Hall Console.ascii_only Examples.fresh_volume) as (b & w' & Hc).
  rewrite Hc in H1. discriminate H1.
Qed.

(** The script on a fresh volume, with a standard output that refuses
    what is not ASCII, and with one that takes every line. *)
Lemma only_a_print_in_an_except_clause_leaves_create_witness :
  (∃ e w1 line message,
     Console.create_body Console.ascii_only Script.base_path
       Script.project_name Script.directories Script.files
       Examples.fresh_volume = (Console.Failed e, w1) ∧
     Console.create_handler Console.ascii_only Script.base_path e w1
       = (Console.Failed
            (Console.UnicodeEncodeError
               "'ascii' codec can't encode character: ordinal not in range(128)"),
          (Console.create_project_structure Console.ascii_only
             Script.base_path Script.project_name Script.directories
             Script.files Examples.fresh_volume).2) ∧
     line ∈ Console.handler_lines Script.base_path e ∧
     Console.ascii_only line = Some message ∧
     Console.UnicodeEncodeError
       "'ascii' codec can't encode character: ordinal not in range(128)"
     = Console.UnicodeEncodeError message) ∧
  (∃ b w',
     Console.create_project_structure Console.takes_all Script.base_path
       Script.project_name Script.directories Script.files
       Examples.fresh_volume = (Console.Done b, w') ∧
     create_project_structure Script.base_path Script.project_name
       Script.directories Script.files Examples.fresh_volume = (Ok b, w')).
Proof.
  assert (H1 : (Console.create_project_structure Console.ascii_only
                  Script.base_path Script.project_name Script.directories
                  Script.files Examples.fresh_volume).1
               = Console.Failed
                   (Console.UnicodeEncodeError
                      "'ascii' codec can't encode character: ordinal not in range(128)"))
    by by_evaluation.
  split.
  - exact (proj1 (only_a_print_in_an_except_clause_leaves_create
                    Script.base_path Script.project_name Script.directories
                    Script.files Console.ascii_only Examples.fresh_volume)
             _ _ (pair_result _ _ H1)).
  - apply (proj2 (only_a_print_in_an_except_clause_leaves_create
                    Script.base_path Script.project_name Script.directories
                    Script.files Console.takes_all Examples.fresh_volume)).
    reflexivity.
Defined.

(** * Further properties of the script *)

(** ** Rules for [adds] *)

Lemma adds_only_refl (ok : list string → node → Prop) (m : gmap path node) :
  adds_only ok m m.
Proof. intros q. by left. Qed.

Lemma adds_only_trans (ok : list string → node → Prop)
    (m1 m2 m3 : gmap path node) :
  adds_only ok m1 m2 → adds_only ok m2 m3 → adds_only ok m1 m3.
Proof.
  intros H12 H23 q.
  destruct (H23 q) as [E23|(N2 & n & E3 & Hok)].
  - rewrite E23. apply H12.
  - right. destruct (H12 q) as [E12|(N1 & n' & E2 & _)]; [|congruence].
    split; [congruence|]. by exists n.
Qed.

Lemma adds_only_weaken (ok ok' : list string → node → Prop)
    (m m' : gmap path node) :
  (∀ q n, ok q n → ok' q n) → adds_only ok m m' → adds_only ok' m m'.
Proof.
  intros Hok H q. destruct (H q) as [E|(N & n & E & Hn)]; [by left|right].
  split; [done|]. exists n. split; [done|]. by apply Hok.
Qed.

Lemma adds_only_insert (ok : list string → node → Prop)
    (m : gmap path node) (p : path) (n : node) :
  m !! p = None → ok p n → adds_only ok m (<[p := n]> m).
Proof.
  intros Hp Hok q. destruct (decide (q = p)) as [->|Hq].
  - right. split; [done|]. exists n. by rewrite lookup_insert_eq.
  - left. by rewrite lookup_insert_ne.
Qed.

Lemma adds_only_subseteq (ok : list string → node → Prop)
    (m m' : gmap path node) :
  adds_only ok m m' → m ⊆ m'.
Proof.
  intros H. apply map_subseteq_spec. intros q n Hq.
  destruct (H q) as [->|(Hn & _)]; congruence.
Qed.

Lemma adds_weaken {A} (ok ok' : list string → node → Prop) (c : M A) :
  (∀ q n, ok q n → ok' q n) → adds ok c → adds ok' c.
Proof.
  intros Hok Hc w r w' H. eapply adds_only_weaken; [exact Hok|].
  by eapply Hc.
Qed.

Section AddRules.
Context {A B : Type}.
Implicit Types (c : M A) (k : A → M B) (ok : list string → node → Prop).

Lemma adds_ret ok (a : A) : adds ok (ret a).
Proof. intros w r w' [= <- <-]. apply adds_only_refl. Qed.

Lemma adds_bind ok c k :
  adds ok c → (∀ a, adds ok (k a)) → adds ok (x <- c ;; k x).
Proof.
  intros Hc Hk w r w' H.
  apply bind_inv in H as [(a & w1 & H1 & H2)|(e & H1 & ->)].
  - eapply adds_only_trans; [by eapply Hc|by eapply Hk].
  - by eapply Hc.
Qed.

End AddRules.

Lemma adds_print (ok : list string → node → Prop) s : adds ok (print s).
Proof. intros w r w' [= <- <-]. apply adds_only_refl. Qed.

Lemma adds_for_each {A} (ok : list string → node → Prop) (xs : list A) body :
  (∀ x, x ∈ xs → adds ok (body x)) → adds ok (for_each xs body).
Proof.
  induction xs as [|x xs IH]; intros Hb; simpl.
  - apply adds_ret.
  - apply adds_bind; [apply Hb; by left|]. intros _. apply IH.
    intros y Hy. apply Hb. by right.
Qed.

Lemma adds_mkdir p :
  adds (λ q n, n = Dir true ∧ q `suffix_of` p) (Path.mkdir true true p).
Proof.
  intros w r w' H. apply mkdir_inv in H as (_ & Hadd & _). intros q.
  destruct (Hadd q) as [E|(N & E & Hsuf)]; [by left|right].
  split; [done|]. by exists (Dir true).
Qed.

Lemma adds_mkdir_flat p :
  adds (λ q n, n = Dir true ∧ q = p) (Path.mkdir_flat true p).
Proof.
  intros w r w' H.
  apply mkdir_flat_inv in H as [[_ H1]|[(_ & -> & _)|(e & _ & -> & _)]].
  - apply os_mkdir_ok in H1 as (x & up & _ & _ & Hp & _ & -> & _).
    by apply adds_only_insert.
  - apply adds_only_refl.
  - apply adds_only_refl.
Qed.

Section AddBodies.

Variable base_path : path.
Variable project_name : string.
Variables directories files : list string.

Local Abbreviation P := (project_path base_path project_name).

Lemma adds_make_directory d :
  adds (λ q n, n = Dir true ∧ q = P // d)
       (make_directory base_path project_name d).
Proof.
  apply adds_bind; [|intros _; apply adds_print].
  intros w r w' H. rewrite mkdir_noparents in H.
  by eapply adds_mkdir_flat.
Qed.

Lemma adds_make_file f :
  adds (λ q n, (n = Dir true ∧ q `suffix_of` PurePath.parent (P // f)) ∨
               (∃ t, q = P // f ∧ n = File "" t))
       (make_file base_path project_name f).
Proof.
  intros w r w' H.
  apply make_file_inv in H as (r1 & w1 & H1 & Hcase).
  assert (H01 : adds_only
    (λ q n, (n = Dir true ∧ q `suffix_of` PurePath.parent (P // f)) ∨
            (∃ t, q = P // f ∧ n = File "" t)) (fs w) (fs w1)).
  { eapply adds_only_weaken; [|by eapply adds_mkdir]. intros q n Hq. by left. }
  destruct Hcase as [(e & _ & _ & ->)|[(_ & _ & _ & ->)|
    [(_ & Hf & _ & w2 & Ho & ->)|(_ & _ & -> & _)]]]; try done.
  destruct (open_creat_absent _ _ _ _ Hf Ho)
    as [(_ & x & up & _ & _ & _ & Hfs & _)|(? & ? & _)]; [|done].
  eapply adds_only_trans; [exact H01|]. cbn [fs]. rewrite Hfs.
  apply adds_only_insert; [done|]. right. by eexists.
Qed.

Lemma adds_create_body :
  adds (may_add base_path project_name directories files)
       (create_body base_path project_name directories files).
Proof.
  unfold create_body.
  apply adds_bind; [apply adds_print|intros _].
  apply adds_bind; [|intros _].
  { eapply adds_weaken; [|apply adds_mkdir].
    intros q n [-> Hq]. left. split; [done|]. by left. }
  apply adds_bind; [apply adds_print|intros _].
  apply adds_bind; [|intros _].
  { apply adds_for_each. intros d Hd.
    eapply adds_weaken; [|apply adds_make_directory].
    intros q n [-> ->]. left. split; [done|]. right; left. by exists d. }
  apply adds_bind; [apply adds_print|intros _].
  apply adds_bind; [|intros _].
  { apply adds_for_each. intros f Hf.
    eapply adds_weaken; [|apply adds_make_file].
    intros q n [[-> Hq]|(t & -> & ->)].
    - left. split; [done|]. right; right. by exists f.
    - right. by exists f, t. }
  apply adds_bind; [apply adds_for_each; intros l _; apply adds_print|intros _].
  apply adds_ret.
Qed.

Lemma adds_create :
  adds (may_add base_path project_name directories files)
       (create_project_structure base_path project_name directories files).
Proof.
  intros w r w' H. apply try_inv in H as [(a & H1 & ->)|(e & w1 & H1 & H2)].
  - by eapply adds_create_body.
  - rewrite create_handler_eq in H2. injection H2 as _ <-.
    unfold printed. cbn [fs]. by eapply adds_create_body.
Qed.

End AddBodies.

(** X1.  Whatever its outcome, [create_project_structure] leaves every
    entry of the tree as it was, declared or not, and what it adds is
    what the layout asks for and no more: writable directories, at or
    above the project directory, at the path of a declared directory,
    or at or above the parent of a declared file; and files, each one
    empty and at the path of a declared file. *)
Theorem create_adds_only_what_is_declared
    (base_path : path) project_name directories files w :
  adds_only (may_add base_path project_name directories files) (fs w)
    (fs (create_project_structure base_path project_name directories files w).2).
Proof.
  eapply adds_create. apply surjective_pairing.
Qed.

(** ** Where the new entries are *)




(** ** Runs that change nothing, runs that are repeated *)

Section Again.

Variable base_path : path.
Variable project_name : string.
Variables directories files : list string.
Variable expected_items : list string.
Variable main_project_path : path.

(** The two ways [create_project_structure] can end. *)
Lemma create_inv w r w' :
  create_project_structure base_path project_name directories files w = (r, w') →
  (r = Ok true ∧
   create_body base_path project_name directories files w = (Ok true, w')) ∨
  (∃ e w1, r = Ok false ∧
     create_body base_path project_name directories files w = (Raise e, w1) ∧
     w' = printed (error_lines base_path e) w1).
Proof.
  intros Hc.
  destruct (create_body base_path project_name directories files w)
    as [[b|e] w1] eqn:H.
  - pose proof (create_body_ok _ _ _ _ _ _ _ H) as (-> & _).
    rewrite (create_of_body_ok _ _ _ _ _ _ _ H) in Hc. left. by simplify_eq.
  - rewrite (create_of_body_raise _ _ _ _ _ _ _ H) in Hc. right.
    exists e, w1. by simplify_eq.
Qed.

(** A second run of the entry point on the world the first one left. *)
Lemma run_again w s w1 :
  run base_path project_name directories files expected_items
    main_project_path w = (s, w1) →
  ∃ w2, run base_path project_name directories files expected_items
          main_project_path w1 = (s, w2) ∧ fs w2 = fs w1.
Proof.
  rewrite run_eq.
  destruct (create_project_structure base_path project_name directories files
              (printed banner_lines w)) as [r wc] eqn:Hc.
  apply create_inv in Hc as [[-> Hb]|(e & wb & -> & Hb & ->)]; intros [= <- <-].
  - destruct (rerunnable_create_body _ _ _ _ _ _ _ Hb) as [_ Hre].
    match goal with |- context [run _ _ _ _ _ _ ?w0] =>
      destruct (Hre (printed banner_lines w0)) as (t' & Ht' & Hfs); [done|];
      rewrite (run_eq _ _ _ _ _ _ w0)
    end.
    rewrite (create_of_body_ok _ _ _ _ _ _ _ Ht').
    eexists. split; [reflexivity|]. exact Hfs.
  - destruct (rerunnable_create_body _ _ _ _ _ _ _ Hb) as [_ Hre].
    match goal with |- context [run _ _ _ _ _ _ ?w0] =>
      destruct (Hre (printed banner_lines w0)) as (t' & Ht' & Hfs); [done|];
      rewrite (run_eq _ _ _ _ _ _ w0)
    end.
    rewrite (create_of_body_raise _ _ _ _ _ _ _ Ht').
    eexists. split; [reflexivity|]. exact Hfs.
Qed.

End Again.

(** X3.  [create_project_structure] returns [True] without a single
    write (same tree, same clock) and with every file reported as
    already present exactly on the trees that are complete: the project
    directory and the declared directories are directories, every
    declared file path is there and its parent is a directory. *)
Theorem create_changes_nothing_exactly_on_complete_trees
    (base_path : path) project_name directories files w :
  complete base_path project_name directories files (fs w) ↔
  create_project_structure base_path project_name directories files w =
  (Ok true,
   printed (report_lines base_path project_name directories
              (map present_line files)) w).
Proof.
  split.
  - intros Hc. apply create_of_body_ok. by apply create_body_complete.
  - intros Hc. apply create_inv in Hc as [[_ Hb]|(e & w1 & ? & _)]; [|done].
    by apply create_body_ok in Hb as (_ & _ & Hcomplete & _).
Qed.

(** X4.  Running the whole script a second time, on the world the first
    run left, ends with the same exit status and leaves the tree as the
    first run left it, whether the first run went through or not. *)
Theorem run_twice_is_run_once
    (base_path : path) project_name directories files expected_items
    (main_project_path : path) w :
  (run base_path project_name directories files expected_items
     main_project_path
     (run base_path project_name directories files expected_items
        main_project_path w).2).1
  = (run base_path project_name directories files expected_items
       main_project_path w).1 ∧
  fs (run base_path project_name directories files expected_items
        main_project_path
        (run base_path project_name directories files expected_items
           main_project_path w).2).2
  = fs (run base_path project_name directories files expected_items
          main_project_path w).2.
Proof.
  destruct (run_again base_path project_name directories files expected_items
              main_project_path w _ _ (surjective_pairing _)) as (w2 & H2 & Hfs).
  rewrite H2. done.
Qed.

(** ** What [verify_structure] tells *)

Lemma verify_all_found (m : gmap path node) (p : path) items :
  (∀ item, item ∈ items → is_Some (m !! (p // item))) →
  forallb (item_present m p) items = true ∧
  verify_lines m p items =
    (Str.nl +:+ "🔍 Überprüfe erstellte Struktur...") :: map found_line items.
Proof.
  intros Hall.
  assert (Hp : ∀ item, item ∈ items → item_present m p item = true).
  { intros item Hin. apply bool_decide_eq_true_2. by apply Hall. }
  split.
  - apply forallb_forall. intros item Hin. by apply Hp, list_elem_of_In.
  - unfold verify_lines. f_equal. apply map_ext_in. intros item Hin.
    unfold status_line. by rewrite Hp by (by apply list_elem_of_In).
Qed.

Lemma some_item_missing (m : gmap path node) (p : path) items :
  forallb (item_present m p) items = false ↔
  ∃ item, item ∈ items ∧ item_present m p item = false.
Proof.
  induction items as [|i items IH]; simpl.
  - split; [done|]. intros (item & Hin & _). by apply elem_of_nil in Hin.
  - rewrite andb_false_iff, IH. split.
    + intros [Hi|(item & Hin & Hm)].
      * exists i. split; [by left|done].
      * exists item. split; [by right|done].
    + intros (item & [->|Hin]%elem_of_cons & Hm); [by left|right].
      by exists item.
Qed.

Lemma found_is_not_missing a b : found_line a ≠ missing_line b.
Proof. unfold found_line, missing_line. simpl. discriminate. Qed.

Lemma header_is_not_missing b :
  Str.nl +:+ "🔍 Überprüfe erstellte Struktur..." ≠ missing_line b.
Proof. unfold missing_line. simpl. discriminate. Qed.

(** X5.  What [verify_structure] returns agrees with what it prints:
    it returns [False] exactly when one of the lines it printed is the
    line that reports an item of its list as missing. *)
Theorem verify_flag_matches_report expected_items (project_path : path) w :
  (verify_structure expected_items project_path w).1 = Ok false ↔
  ∃ item, item ∈ expected_items ∧
    missing_line item ∈
      drop (List.length (stdout w))
        (stdout (verify_structure expected_items project_path w).2).
Proof.
  rewrite verify_structure_eq. unfold printed. cbn [fst snd stdout].
  rewrite drop_app_length. unfold verify_lines. split.
  - intros [= H]. apply some_item_missing in H as (item & Hin & Hm).
    exists item. split; [done|]. right. apply list_elem_of_fmap.
    exists item. split; [|done]. unfold status_line. by rewrite Hm.
  - intros (item & _ & [Hh|Hl]%elem_of_cons).
    { by apply eq_sym, header_is_not_missing in Hh. }
    apply list_elem_of_fmap in Hl as (item' & Heq & Hin').
    f_equal. apply some_item_missing. exists item'. split; [done|].
    unfold status_line in Heq.
    destruct (item_present (fs w) project_path item'); [|done].
    by apply eq_sym, found_is_not_missing in Heq.
Qed.

(** X6.  A run of [create_project_structure] never spoils a
    verification: when [verify_structure] returns [True] for a list of
    items and a path, it still does after [create_project_structure]
    has run, whatever the layout and the outcome of the run. *)
Theorem verification_survives_create
    (base_path : path) project_name directories files
    expected_items (project_path : path) w :
  (verify_structure expected_items project_path w).1 = Ok true →
  (verify_structure expected_items project_path
     (create_project_structure base_path project_name directories files w).2).1
  = Ok true.
Proof.
  rewrite !verify_structure_eq. cbn [fst]. intros [= H]. f_equal.
  apply forallb_forall. intros item Hin.
  apply (proj1 (forallb_forall _ _) H) in Hin.
  unfold item_present in *. apply bool_decide_eq_true in Hin.
  apply bool_decide_eq_true_2. eapply lookup_weaken_is_Some; [exact Hin|].
  exact (keeps_create base_path project_name directories files _
           (grows_above (fs w)) w _ _ (reflexivity _) (surjective_pairing _)).
Qed.

(** X7.  The script as it is written, on any world: when the process
    ends with exit status 0, every item of the list of
    [verify_structure] is in the tree it leaves, under the path the
    entry point verifies, and the verification printed the found line
    for each of them, with no item reported as missing, right before
    the closing line. *)
Theorem script_exit_zero_means_all_present w :
  (Script.run w).1 = 0 →
  (∀ item, item ∈ Script.expected_items →
     is_Some (fs (Script.run w).2 !! (Script.main_project_path // item))) ∧
  ∃ w1,
    (Script.run w).2 =
    printed ((Str.nl +:+ "🔍 Überprüfe erstellte Struktur...")
               :: map found_line Script.expected_items ++ [done_line]) w1.
Proof.
  unfold Script.run. rewrite run_eq.
  destruct (create_project_structure Script.base_path Script.project_name
              Script.directories Script.files (printed banner_lines w))
    as [r wc] eqn:Hc.
  apply create_inv in Hc as [[-> Hb]|(e & wb & -> & _ & _)]; [|done].
  intros _. apply create_body_ok in Hb as (_ & _ & (HdP & Hds & Hfl) & _).
  assert (Hitems : ∀ item, item ∈ Script.expected_items →
                           item ∈ Script.directories ++ Script.files).
  { apply Forall_forall. by_decision. }
  assert (Hpath : Script.main_project_path
                  = project_path Script.base_path Script.project_name)
    by reflexivity.
  assert (Hall : ∀ item, item ∈ Script.expected_items →
            is_Some (fs wc !! (Script.main_project_path // item))).
  { intros item Hin. rewrite Hpath.
    apply Hitems in Hin. apply elem_of_app in Hin as [Hd|Hf].
    - destruct (Hds _ Hd) as [b Hb]. by eexists.
    - by apply Hfl. }
  split; [exact Hall|].
  exists wc. cbn [snd].
  rewrite (proj2 (verify_all_found _ _ _ Hall)), printed_printed.
  reflexivity.
Qed.

(** ** What the exceptions tell *)

Section TruthRules.
Context {A B : Type}.
Implicit Types (c : M A) (k : A → M B).

Lemma raises_truly_ret (a : A) : raises_truly (ret a).
Proof. by intros w e w' [= ]. Qed.

Lemma raises_truly_bind c k :
  raises_truly c → (∀ a, raises_truly (k a)) → raises_truly (x <- c ;; k x).
Proof.
  intros Hc Hk w e w' H.
  apply bind_inv in H as [(a & w1 & H1 & H2)|(e' & H1 & [= ->])].
  - by eapply Hk.
  - by eapply Hc.
Qed.

End TruthRules.

Lemma raises_truly_print s : raises_truly (print s).
Proof. by intros w e w' [= ]. Qed.

Lemma raises_truly_for_each {A} (xs : list A) body :
  (∀ x, raises_truly (body x)) → raises_truly (for_each xs body).
Proof.
  intros Hb. induction xs as [|x xs IH]; simpl.
  - apply raises_truly_ret.
  - apply raises_truly_bind; [apply Hb|]. intros _. exact IH.
Qed.

Lemma os_mkdir_explains p w e w' :
  os.mkdir p w = (Raise e, w') → ¬ is_dir_in (fs w) p → explains (fs w') e.
Proof.
  intros H Hnd. apply os_mkdir_raise in H as [-> Hcase].
  destruct Hcase as [[-> Hp]|[(-> & Hp & x & up & -> & _ & Hup)|(-> & Hp & Hno)]];
    simpl.
  - destruct Hp as [[b|c t] Hn]; [|by exists c, t].
    destruct Hnd. by exists b.
  - split; [done|]. by exists x, up.
  - done.
Qed.

Lemma raises_truly_mkdir_flat p : raises_truly (Path.mkdir_flat true p).
Proof.
  intros w e w' H.
  apply mkdir_flat_inv in H as [[? _]|[(? & _)|(e' & [= ->] & -> & H1 & Hnd)]];
    [done..|].
  by eapply os_mkdir_explains.
Qed.

(** The handler of [mkdir], on a path that is no directory, raises
    what it was given. *)
Lemma mkdir_handler_raises p e0 w r w' :
  ¬ is_dir_in (fs w) p →
  (d <- Path.is_dir p ;; if negb true || negb d then raise e0 else ret tt) w
    = (r, w') →
  r = Raise e0 ∧ w' = w.
Proof.
  intros Hnd. unfold bind. rewrite (is_dir_false _ _ Hnd). simpl.
  unfold raise. by intros [= <- <-].
Qed.

Lemma mkdir_handler_returns p e0 w r w' :
  is_dir_in (fs w) p →
  (d <- Path.is_dir p ;; if negb true || negb d then raise e0 else ret tt) w
    = (r, w') →
  r = Ok tt.
Proof.
  intros Hd. unfold bind. rewrite (is_dir_true _ _ Hd). simpl.
  unfold ret. by intros [= <- <-].
Qed.

Lemma raises_truly_mkdir p : raises_truly (Path.mkdir true true p).
Proof.
  induction p as [|x up IH]; intros w e w' H; rewrite mkdir_unfold in H.
  all: apply try_inv in H as [(a & _ & ?)|(e0 & w1 & H1 & H2)]; [done|].
  all: pose proof (os_mkdir_raise _ _ _ _ H1) as [-> Hcase].
  all: match type of H1 with os.mkdir ?p _ = _ =>
         destruct (is_dir_in_dec (fs w) p) as [Hd|Hnd]
       end.
  1,3: destruct Hcase as [[-> _]|[(-> & Hp & _)|(-> & Hp & _)]];
    [by apply (mkdir_handler_returns _ _ _ _ _ Hd) in H2
    |destruct Hd; congruence|destruct Hd; congruence].
  - destruct e0;
      try (apply (mkdir_handler_raises _ _ _ _ _ Hnd) in H2 as [[= ->] ->];
           by eapply os_mkdir_explains).
    unfold raise in H2. injection H2 as <- <-. by eapply os_mkdir_explains.
  - destruct e0;
      try (apply (mkdir_handler_raises _ _ _ _ _ Hnd) in H2 as [[= ->] ->];
           by eapply os_mkdir_explains).
    destruct up as [|y up'].
    { unfold raise in H2. injection H2 as <- <-. by eapply os_mkdir_explains. }
    apply bind_inv in H2 as [([] & w2 & H2 & H3)|(e' & H2 & [= ->])].
    + by eapply raises_truly_mkdir_flat.
    + by eapply IH.
Qed.

Lemma open_creat_explains p w e w' :
  fs w !! p = None → os.open_creat p w = (Raise e, w') → explains (fs w') e.
Proof.
  intros Hp. unfold os.open_creat. rewrite Hp.
  destruct p as [|x [|y up]]; intros H.
  1,2: simplify_eq; simpl; split; [done|]; intros ? ? [= ]; done.
  destruct (fs w !! (y :: up)) as [[[]|]|] eqn:Hup; simplify_eq; simpl.
  - split; [done|]. by exists x, (y :: up).
  - split; [done|]. intros ? ? [= <- <-] _ [b Hb]. congruence.
  - split; [done|]. intros ? ? [= <- <-] _ [b Hb]. congruence.
Qed.

Section Truth.

Variable base_path : path.
Variable project_name : string.
Variables directories files : list string.

Lemma raises_truly_make_directory d :
  raises_truly (make_directory base_path project_name d).
Proof.
  apply raises_truly_bind; [|intros _; apply raises_truly_print].
  intros w e w' H. rewrite mkdir_noparents in H.
  by eapply raises_truly_mkdir_flat.
Qed.

Lemma raises_truly_make_file f :
  raises_truly (make_file base_path project_name f).
Proof.
  intros w e w' H.
  apply make_file_inv in H as (r1 & w1 & H1 & Hcase).
  destruct Hcase as [(e' & -> & [= ->] & ->)|[(_ & _ & ? & _)|
    [(_ & _ & ? & _)|(_ & Hf & -> & e' & [= ->] & Ho)]]]; try done.
  - by eapply raises_truly_mkdir.
  - by eapply open_creat_explains.
Qed.

Lemma raises_truly_create_body :
  raises_truly (create_body base_path project_name directories files).
Proof.
  unfold create_body.
  apply raises_truly_bind; [apply raises_truly_print|intros _].
  apply raises_truly_bind; [apply raises_truly_mkdir|intros _].
  apply raises_truly_bind; [apply raises_truly_print|intros _].
  apply raises_truly_bind;
    [apply raises_truly_for_each; intros d; apply raises_truly_make_directory
    |intros _].
  apply raises_truly_bind; [apply raises_truly_print|intros _].
  apply raises_truly_bind;
    [apply raises_truly_for_each; intros f; apply raises_truly_make_file
    |intros _].
  apply raises_truly_bind;
    [apply raises_truly_for_each; intros l; apply raises_truly_print|intros _].
  apply raises_truly_ret.
Qed.

End Truth.

(** X8.  When [create_project_structure] returns [False], what it
    printed last is the message of the exception its body raised, and
    that exception tells the truth about the tree the run leaves: for a
    [FileExistsError] the entry it names is a regular file (where a
    directory was to be made); for a [PermissionError] the entry is
    missing and its parent is a directory in which nothing can be made;
    in the last case the entry is missing and has no directory to be
    made in. *)
Theorem errors_name_the_obstacle
    (base_path : path) project_name directories files w w' :
  create_project_structure base_path project_name directories files w
    = (Ok false, w') →
  ∃ e w1,
    create_body base_path project_name directories files w = (Raise e, w1) ∧
    w' = printed (error_lines base_path e) w1 ∧
    explains (fs w') e.
Proof.
  intros Hc. apply create_inv in Hc as [[? _]|(e & w1 & _ & Hb & ->)]; [done|].
  exists e, w1. split; [done|]. split; [done|].
  unfold printed. cbn [fs]. by eapply raises_truly_create_body.
Qed.

(** ** A declared directory that cannot be made *)

Lemma os_mkdir_no_parent p w :
  fs w !! p = None → ¬ is_dir_in (fs w) (PurePath.parent p) →
  os.mkdir p w = (Raise (FileNotFoundError p), w).
Proof.
  intros Hp Hnd. unfold os.mkdir. rewrite Hp.
  destruct p as [|x [|y up]]; [done..|]. simpl in Hnd.
  destruct (fs w !! (y :: up)) as [[b|c t]|] eqn:Hup; [|done..].
  destruct Hnd. by exists b.
Qed.

Section InTheWay.

Variable base_path : path.
Variable project_name : string.
Variables directories files : list string.

Local Abbreviation P := (project_path base_path project_name).

(** A regular file at the path of the directory: [exist_ok] does not
    make up for it. *)
Lemma make_directory_conflict d w c t :
  fs w !! (P // d) = Some (File c t) →
  make_directory base_path project_name d w
  = (Raise (FileExistsError (P // d)), w).
Proof.
  intros Hf.
  assert (Hnd : ¬ is_dir_in (fs w) (P // d)) by (intros [b Hb]; congruence).
  unfold make_directory, bind. rewrite mkdir_noparents.
  unfold Path.mkdir_flat, try_except, os.mkdir. rewrite Hf.
  unfold bind. by rewrite (is_dir_false _ _ Hnd).
Qed.

(** The directory the new one has to sit in is not there: the first
    loop makes no parents. *)
Lemma make_directory_no_parent d w :
  fs w !! (P // d) = None → ¬ is_dir_in (fs w) (PurePath.parent (P // d)) →
  make_directory base_path project_name d w
  = (Raise (FileNotFoundError (P // d)), w).
Proof.
  intros Hp Hnd. unfold make_directory, bind. rewrite mkdir_noparents.
  unfold Path.mkdir_flat, try_except.
  by rewrite (os_mkdir_no_parent _ _ Hp Hnd).
Qed.

(** Nothing can be made in the project directory. *)
Lemma make_directory_denied d w :
  fs w !! P = Some (Dir false) → fs w !! (P // d) = None →
  PurePath.parent (P // d) = P → P // d ≠ P →
  make_directory base_path project_name d w
  = (Raise (PermissionError (P // d)), w).
Proof.
  intros HP Hd Hpar Hne.
  assert (Hnd : ¬ is_dir_in (fs w) (P // d)) by (intros [b Hb]; congruence).
  destruct (parent_cons (P // d)) as (x & Hx & HP0); [congruence|].
  rewrite Hpar in Hx, HP0.
  unfold make_directory, bind. rewrite mkdir_noparents.
  unfold Path.mkdir_flat, try_except, os.mkdir. rewrite Hd.
  rewrite Hx in *. destruct P as [|y P'] eqn:HPeq; [done|].
  rewrite HP. unfold bind. by rewrite (is_dir_false _ _ Hnd).
Qed.

(** A run that finds the project directory and the directories [pre]
    in place and fails at the directory after them. *)
Lemma create_fails_at_directory pre d post w e :
  directories = pre ++ d :: post →
  is_dir_in (fs w) P →
  (∀ d', d' ∈ pre → is_dir_in (fs w) (P // d')) →
  (∀ t, fs t = fs w →
        make_directory base_path project_name d t = (Raise e, t)) →
  create_project_structure base_path project_name directories files w =
  (Ok false,
   printed (opening_lines base_path project_name ++ map dir_line pre
              ++ error_lines base_path e) w).
Proof.
  intros Hds HdP Hpre Hd.
  assert (Hb : create_body base_path project_name directories files w =
    (Raise e,
     printed (opening_lines base_path project_name ++ map dir_line pre) w)).
  { unfold create_body, bind. rewrite Hds.
    rewrite print_eq, mkdir_settled by done.
    rewrite print_eq, for_each_app. unfold bind.
    rewrite directories_loop_settled by done.
    cbn [for_each]. unfold bind. rewrite Hd by done.
    unfold printed, opening_lines. cbn [fs clock stdout].
    rewrite <- !app_assoc. reflexivity. }
  rewrite (create_of_body_raise _ _ _ _ _ _ _ Hb), printed_printed.
  by rewrite <- !app_assoc.
Qed.

End InTheWay.

(** X9.  A regular file at the path of a declared directory makes the
    run fail, although the directories are made with [exist_ok]: when
    the project directory and the declared directories before it are
    in place, [create_project_structure] prints the lines up to that
    directory and the message of the [FileExistsError] for it, returns
    [False] and writes nothing at all; the directories and the files
    declared after it are not looked at. *)
Theorem file_in_place_of_directory_aborts
    (base_path : path) project_name directories files pre d post w c t :
  directories = pre ++ d :: post →
  is_dir_in (fs w) (project_path base_path project_name) →
  (∀ d', d' ∈ pre →
         is_dir_in (fs w) (project_path base_path project_name // d')) →
  fs w !! (project_path base_path project_name // d) = Some (File c t) →
  create_project_structure base_path project_name directories files w =
  (Ok false,
   printed (opening_lines base_path project_name ++ map dir_line pre
              ++ [ "❌ Fehler: " +:+
                   str_exn (FileExistsError
                              (project_path base_path project_name // d)) ])
     w).
Proof.
  intros Hds HdP Hpre Hf.
  apply (create_fails_at_directory _ _ _ _ pre d post w
           (FileExistsError (project_path base_path project_name // d)));
    [done..|].
  intros w0 Hw0. apply (make_directory_conflict _ _ _ _ c t). by rewrite Hw0.
Qed.

(** X10.  The first loop makes no parents: a declared directory whose
    parent is not there as a directory (a nested entry such as [a/b]
    with no [a]) and which is not there itself makes the run fail with
    the message of the catch-all clause.  When the project directory
    and the declared directories before it are in place,
    [create_project_structure] returns [False] and writes nothing. *)
Theorem nested_directory_needs_its_parent
    (base_path : path) project_name directories files pre d post w :
  directories = pre ++ d :: post →
  is_dir_in (fs w) (project_path base_path project_name) →
  (∀ d', d' ∈ pre →
         is_dir_in (fs w) (project_path base_path project_name // d')) →
  fs w !! (project_path base_path project_name // d) = None →
  ¬ is_dir_in (fs w)
      (PurePath.parent (project_path base_path project_name // d)) →
  create_project_structure base_path project_name directories files w =
  (Ok false,
   printed (opening_lines base_path project_name ++ map dir_line pre
              ++ [ "❌ Unerwarteter Fehler: " +:+
                   str_exn (FileNotFoundError
                              (project_path base_path project_name // d)) ])
     w).
Proof.
  intros Hds HdP Hpre Hp Hnd.
  apply (create_fails_at_directory _ _ _ _ pre d post w
           (FileNotFoundError (project_path base_path project_name // d)));
    [done..|].
  intros t Ht. apply make_directory_no_parent; by rewrite Ht.
Qed.

(** X11.  A project directory in which nothing can be made: when the
    project directory is there, not writable, and the declared
    directories up to one that is missing are in place,
    [create_project_structure] prints the two lines of the
    [PermissionError] clause, returns [False] and writes nothing.  The
    message names [base_path], not the project directory and not the
    directory that could not be made. *)
Theorem readonly_project_directory_is_reported
    (base_path : path) project_name directories files pre d post w :
  directories = pre ++ d :: post →
  fs w !! project_path base_path project_name = Some (Dir false) →
  (∀ d', d' ∈ pre →
         is_dir_in (fs w) (project_path base_path project_name // d')) →
  fs w !! (project_path base_path project_name // d) = None →
  PurePath.parent (project_path base_path project_name // d)
    = project_path base_path project_name →
  project_path base_path project_name // d
    ≠ project_path base_path project_name →
  create_project_structure base_path project_name directories files w =
  (Ok false,
   printed (opening_lines base_path project_name ++ map dir_line pre
              ++ [ "❌ Fehler: Keine Berechtigung zum Erstellen von Dateien in "
                     +:+ PurePath.str base_path;
                   "Führen Sie das Script als Administrator aus oder wählen Sie einen anderen Pfad." ])
     w).
Proof.
  intros Hds HP Hpre Hd Hpar Hne.
  apply (create_fails_at_directory _ _ _ _ pre d post w
           (PermissionError (project_path base_path project_name // d)));
    [done|by exists false|done|].
  intros w0 Hw0. apply make_directory_denied; by rewrite ?Hw0.
Qed.

(** ** A file that is declared twice *)

Section Twice.

Variable base_path : path.
Variable project_name : string.
Variables directories files : list string.

Local Abbreviation P := (project_path base_path project_name).
Local Abbreviation file_step := (make_file base_path project_name).

(** The second loop inside a run of the body that goes through. *)
Lemma create_body_files_loop w b w' :
  create_body base_path project_name directories files w = (Ok b, w') →
  ∃ w5 w6,
    for_each files file_step w5 = (Ok tt, w6) ∧
    stdout w5 = stdout w ++ opening_lines base_path project_name
                  ++ map dir_line directories
                  ++ [Str.nl +:+ "Erstelle Dateien:"] ∧
    stdout w' = stdout w6 ++ closing_lines base_path project_name.
Proof.
  intros H. unfold create_body in H.
  apply bind_inv in H as [([] & w1 & H1 & H)|(e & _ & ?)]; [|done].
  rewrite print_eq in H1. injection H1 as <-.
  apply bind_inv in H as [([] & w2 & H2 & H)|(e & _ & ?)]; [|done].
  apply mkdir_inv in H2 as (Hout2 & _ & _).
  cbn [fs clock stdout] in *.
  apply bind_inv in H as [([] & w3 & H3 & H)|(e & _ & ?)]; [|done].
  rewrite print_eq in H3. injection H3 as <-.
  apply bind_inv in H as [([] & w4 & H4 & H)|(e & _ & ?)]; [|done].
  apply directories_loop_ok in H4 as (_ & _ & Hout4).
  cbn [fs clock stdout] in *.
  apply bind_inv in H as [([] & w5 & H5 & H)|(e & _ & ?)]; [|done].
  rewrite print_eq in H5. injection H5 as <-.
  apply bind_inv in H as [([] & w6 & H6 & H)|(e & _ & ?)]; [|done].
  apply bind_inv in H as [([] & w7 & H7 & H)|(e & _ & ?)]; [|done].
  rewrite for_each_print in H7. injection H7 as <-.
  unfold ret in H. injection H as _ <-.
  eexists _, w6. split; [exact H6|]. cbn [fs clock stdout]. split; [|done].
  rewrite Hout4, Hout2. unfold opening_lines. rewrite <- !app_assoc.
  reflexivity.
Qed.

Lemma files_loop_second_time pre f mid post w w' :
  for_each (pre ++ f :: mid ++ f :: post) file_step w = (Ok tt, w') →
  ∃ lines, stdout w' = stdout w ++ lines ∧
    List.length lines = List.length (pre ++ f :: mid ++ f :: post) ∧
    lines !! (List.length pre + S (List.length mid)) = Some (present_line f).
Proof.
  intros H.
  replace (pre ++ f :: mid ++ f :: post)
    with ((pre ++ f :: mid) ++ f :: post) in * by (by rewrite <- app_assoc).
  rewrite for_each_app in H.
  apply bind_inv in H as [([] & w1 & H1 & H2)|(e & _ & ?)]; [|done].
  apply files_loop_ok in H1 as (_ & Hthere & lines1 & Hout1 & Hrep1).
  apply files_loop_ok in H2 as (_ & _ & lines2 & Hout2 & Hrep2).
  destruct (Hthere f) as [Hf _].
  { apply elem_of_app. right. by left. }
  apply Forall2_length in Hrep1 as Hlen1.
  apply Forall2_length in Hrep2 as Hlen2.
  apply Forall2_cons_inv_l in Hrep2 as (l & rest & Hl & _ & ->).
  assert (l = present_line f) as ->.
  { destruct Hl as [->|[Hnone _]]; [done|]. rewrite Hnone in Hf.
    by destruct Hf. }
  exists (lines1 ++ present_line f :: rest). split; [|split].
  - rewrite Hout2, Hout1. by rewrite <- app_assoc.
  - rewrite !length_app. rewrite <- Hlen1, <- Hlen2, !length_app. done.
  - rewrite lookup_app_r by (rewrite <- Hlen1, length_app; simpl; lia).
    rewrite <- Hlen1, length_app. simpl.
    by replace (_ - _) with 0 by lia.
Qed.

End Twice.

(** X12.  A file path that the layout declares twice does no harm: in
    a run of [create_project_structure] that returns [True], the line
    printed at its second place in the file loop is the one that
    reports the file as already present, whether the run made the
    file at its first place or found it there. *)
Theorem file_declared_twice_is_reported_present
    (base_path : path) project_name directories files pre f mid post w w' :
  files = pre ++ f :: mid ++ f :: post →
  create_project_structure base_path project_name directories files w
    = (Ok true, w') →
  ∃ lines,
    stdout w' =
      stdout w ++ report_lines base_path project_name directories lines ∧
    List.length lines = List.length files ∧
    lines !! (List.length pre + S (List.length mid)) = Some (present_line f).
Proof.
  intros Hfiles Hc.
  apply create_inv in Hc as [[_ Hb]|(e & w1 & ? & _)]; [|done].
  apply create_body_files_loop in Hb as (w5 & w6 & Hloop & Hout5 & Hout').
  rewrite Hfiles in Hloop.
  apply files_loop_second_time in Hloop as (lines & Hout6 & Hlen & Hline).
  exists lines. split; [|split; [by rewrite Hfiles|done]].
  rewrite Hout', Hout6, Hout5. unfold report_lines, opening_lines.
  rewrite <- !app_assoc. reflexivity.
Qed.

(** ** A project that is partly there *)

Lemma tidy_below_check (P : path) (allowed : list string)
    (m : gmap path node) :
  wf_fs m → m !! P = Some (Dir true) →
  map_Forall (λ q n, tidy_entry P allowed q n = true) m →
  tidy_below P allowed m.
Proof.
  intros Hwf HP Hall. split; [done|]. split; [done|].
  intros q n Hq Hn. specialize (Hall _ _ Hn). unfold tidy_entry in Hall.
  rewrite bool_decide_eq_true_2 in Hall by done. simpl in Hall.
  destruct n as [b|c t].
  - left. by rewrite Hall.
  - right. apply bool_decide_eq_true in Hall.
    apply list_elem_of_fmap in Hall as (g & -> & Hg). by exists g, c, t.
Qed.

Section Resume.

Variable base_path : path.
Variable project_name : string.
Variables directories files : list string.

Local Abbreviation P := (project_path base_path project_name).
Local Abbreviation directory_step := (make_directory base_path project_name).

(** The step of a declared directory on a tidy project: the directory
    is there or is made. *)
Lemma directory_step_resumes d w :
  tidy_below P files (fs w) →
  PurePath.parent (P // d) = P → P // d ≠ P →
  (∀ g, g ∈ files → P // g ≠ P // d) →
  ∃ w', directory_step d w = (Ok tt, w') ∧ tidy_below P files (fs w').
Proof.
  intros Htidy Hpar Hne Hnofile.
  pose proof Htidy as (Hwf & HP & Hall).
  destruct (parent_cons (P // d)) as (x & Hx & HP0); [congruence|].
  rewrite Hpar in Hx, HP0.
  destruct (fs w !! (P // d)) as [n|] eqn:Hd.
  - destruct (Hall (P // d) n) as [->|(g & _ & _ & Hg & Heq & _)];
      [rewrite Hx; by apply suffix_cons_r|done| |].
    + rewrite make_directory_settled by (by exists true).
      eexists. split; [reflexivity|]. exact Htidy.
    + by destruct (Hnofile g Hg).
  - unfold make_directory, bind. rewrite mkdir_noparents.
    unfold Path.mkdir_flat, try_except, os.mkdir. rewrite Hd.
    rewrite Hx in *. destruct P as [|y P'] eqn:HPeq; [done|].
    rewrite HP, print_eq. eexists. split; [reflexivity|].
    cbn [fs tick set_fs]. split; [|split].
    + by apply grows_wf_fs.
    + rewrite lookup_insert_ne; [done|]. intros Heq.
      apply (f_equal (@List.length string)) in Heq. simpl in Heq. lia.
    + intros q n Hq Hn. destruct (decide (q = x :: y :: P')) as [->|Hqne].
      * rewrite lookup_insert_eq in Hn. left. congruence.
      * rewrite lookup_insert_ne in Hn by done. by apply Hall.
Qed.

Lemma directories_loop_resumes ds : ∀ w,
  tidy_below P files (fs w) →
  (∀ d, d ∈ ds → PurePath.parent (P // d) = P ∧ P // d ≠ P) →
  (∀ d g, d ∈ ds → g ∈ files → P // g ≠ P // d) →
  ∃ w', for_each ds directory_step w = (Ok tt, w') ∧
        tidy_below P files (fs w').
Proof.
  induction ds as [|d ds IH]; intros w Htidy Hds Hnofile.
  - exists w. done.
  - destruct (Hds d) as [Hpar Hne]; [by left|].
    destruct (directory_step_resumes d w Htidy Hpar Hne) as (w1 & H1 & Htidy1).
    { intros g Hg. apply Hnofile; [by left|done]. }
    destruct (IH w1 Htidy1) as (w' & H' & Htidy').
    + intros d' Hd'. apply Hds. by right.
    + intros d' g Hd' Hg. apply Hnofile; [by right|done].
    + exists w'. split; [|done]. cbn [for_each]. unfold bind. by rewrite H1.
Qed.

End Resume.

(** X13.  A project that is partly there is completed.  On a
    well-formed tree where the project directory is a writable
    directory with nothing at or below it but writable directories and
    files at declared file paths (what an earlier run that was cut
    short leaves, or a project from which files were deleted), and
    with a layout whose directories sit directly in the project
    directory, whose files sit below it, and where no declared file
    path is the path of a declared directory or lies above another
    file, [create_project_structure] returns [True], takes nothing
    away and leaves everything declared in place. *)
Theorem create_completes_a_partial_project
    (base_path : path) project_name directories files w :
  tidy_below (project_path base_path project_name) files (fs w) →
  (∀ d, d ∈ directories →
     PurePath.parent (project_path base_path project_name // d)
       = project_path base_path project_name ∧
     project_path base_path project_name // d
       ≠ project_path base_path project_name) →
  (∀ d g, d ∈ directories → g ∈ files →
     project_path base_path project_name // g
       ≠ project_path base_path project_name // d) →
  (∀ f, f ∈ files →
     project_path base_path project_name `suffix_of`
       PurePath.parent (project_path base_path project_name // f) ∧
     PurePath.parent (project_path base_path project_name // f)
       ≠ project_path base_path project_name // f) →
  (∀ f g, f ∈ files → g ∈ files →
     ¬ (project_path base_path project_name // g) `suffix_of`
         PurePath.parent (project_path base_path project_name // f)) →
  ∃ w',
    create_project_structure base_path project_name directories files w
      = (Ok true, w') ∧
    fs w ⊆ fs w' ∧
    complete base_path project_name directories files (fs w').
Proof.
  intros Htidy Hdirs Hnofile Hbelow Hclear.
  set (P := project_path base_path project_name) in *.
  assert (∃ w', create_body base_path project_name directories files w
                = (Ok true, w')) as (w' & Hb).
  { unfold create_body, bind. fold P. rewrite print_eq.
    rewrite mkdir_settled by (destruct Htidy as (_ & HP & _); by exists true).
    rewrite print_eq.
    match goal with |- context [for_each directories _ ?w0] =>
      destruct (directories_loop_resumes _ _ files directories w0 Htidy
                  Hdirs Hnofile) as (w4 & H4 & Htidy4)
    end.
    rewrite H4, print_eq.
    match goal with |- context [for_each files _ ?w0] =>
      destruct (files_loop_tidy _ _ files files w0 Htidy4 (λ f Hf, Hf)
                  Hbelow Hclear) as (w6 & H6 & Htidy6)
    end.
    rewrite H6, for_each_print. by eexists. }
  pose proof (create_body_ok _ _ _ _ _ _ _ Hb) as (_ & Hsub & Hcomplete & _).
  exists w'. split; [by apply create_of_body_ok|]. done.
Qed.

(** X14.  What [True] means: when [create_project_structure] returns
    [True], the project directory and every declared directory are
    directories in the tree it leaves (not merely entries of some
    kind), every declared file path is there, and the parent of every
    declared file is a directory. *)
Theorem create_true_means_complete
    (base_path : path) project_name directories files w w' :
  create_project_structure base_path project_name directories files w
    = (Ok true, w') →
  complete base_path project_name directories files (fs w').
Proof.
  intros Hc. apply create_inv in Hc as [[_ Hb]|(e & w1 & ? & _)]; [|done].
  by apply create_body_ok in Hb as (_ & _ & Hcomplete & _).
Qed.

(** ** The further properties on concrete worlds *)


(** A project with a [main.js]: the verification of [main.js] passes
    before the run and after it. *)
Lemma verification_survives_create_witness :
  (verify_structure ["main.js"] Script.project_path
     (create_project_structure Script.base_path Script.project_name
        Script.directories Script.files Examples.with_main_js).2).1
  = Ok true.
Proof.
  apply verification_survives_create. by_evaluation.
Defined.

Lemma script_exit_zero_means_all_present_witness :
  (∀ item, item ∈ Script.expected_items →
     is_Some (fs (Script.run Examples.fresh_volume).2
                !! (Script.main_project_path // item))) ∧
  ∃ w1,
    (Script.run Examples.fresh_volume).2 =
    printed ((Str.nl +:+ "🔍 Überprüfe erstellte Struktur...")
               :: map found_line Script.expected_items ++ [done_line]) w1.
Proof.
  apply script_exit_zero_means_all_present. by_evaluation.
Defined.

(** [C:\Users] is a file: the run fails and names it. *)
Lemma errors_name_the_obstacle_witness :
  ∃ e w1,
    create_body Script.base_path Script.project_name Script.directories
      Script.files Examples.users_is_a_file = (Raise e, w1) ∧
    (Script.create_project_structure Examples.users_is_a_file).2
      = printed (error_lines Script.base_path e) w1 ∧
    explains (fs (Script.create_project_structure Examples.users_is_a_file).2) e.
Proof.
  assert (H1 : (Script.create_project_structure Examples.users_is_a_file).1
               = Ok false) by by_evaluation.
  exact (errors_name_the_obstacle Script.base_path Script.project_name
           Script.directories Script.files Examples.users_is_a_file _
           (run_result _ _ _ H1)).
Defined.

(** The script on a project where [rfid] is a file. *)
Lemma file_in_place_of_directory_aborts_witness :
  Script.create_project_structure Cases.rfid_is_a_file =
  (Ok false,
   printed (opening_lines Script.base_path Script.project_name
              ++ map dir_line ["renderer"]
              ++ [ "❌ Fehler: " +:+
                   str_exn (FileExistsError
                     (project_path Script.base_path Script.project_name
                      // "rfid")) ])
     Cases.rfid_is_a_file).
Proof.
  apply (file_in_place_of_directory_aborts Script.base_path Script.project_name
           Script.directories Script.files ["renderer"] "rfid" ["db"]
           Cases.rfid_is_a_file "notes" 4).
  - reflexivity.
  - exists true. by_evaluation.
  - apply Forall_forall. constructor; [|constructor].
    exists true. by_evaluation.
  - by_evaluation.
Defined.

(** The scenario root with the directories [deep/er] and [a]. *)
Lemma nested_directory_needs_its_parent_witness :
  create_project_structure Examples.scenario_root Examples.scenario_name
    Cases.nested_directories Examples.scenario_files
    Examples.scenario_c_is_a_file =
  (Ok false,
   printed (opening_lines Examples.scenario_root Examples.scenario_name
              ++ map dir_line []
              ++ [ "❌ Unerwarteter Fehler: " +:+
                   str_exn (FileNotFoundError
                     (project_path Examples.scenario_root Examples.scenario_name
                      // "deep/er")) ])
     Examples.scenario_c_is_a_file).
Proof.
  apply (nested_directory_needs_its_parent Examples.scenario_root
           Examples.scenario_name Cases.nested_directories
           Examples.scenario_files [] "deep/er" ["a"]
           Examples.scenario_c_is_a_file).
  - reflexivity.
  - exists true. by_evaluation.
  - apply Forall_forall. constructor.
  - by_evaluation.
  - by_decision.
Defined.

(** The scenario root with [a.txt] declared twice. *)
Lemma file_declared_twice_is_reported_present_witness :
  ∃ lines,
    stdout (create_project_structure Examples.scenario_root
              Examples.scenario_name Examples.scenario_directories
              Cases.twice_files Examples.scenario_c_is_a_file).2 =
      stdout Examples.scenario_c_is_a_file ++
      report_lines Examples.scenario_root Examples.scenario_name
        Examples.scenario_directories lines ∧
    List.length lines = List.length Cases.twice_files ∧
    lines !! (List.length (@nil string) + S (List.length ["b.txt"]))
      = Some (present_line "a.txt").
Proof.
  assert (H1 : (create_project_structure Examples.scenario_root
                  Examples.scenario_name Examples.scenario_directories
                  Cases.twice_files Examples.scenario_c_is_a_file).1
               = Ok true) by by_evaluation.
  exact (file_declared_twice_is_reported_present Examples.scenario_root
           Examples.scenario_name Examples.scenario_directories
           Cases.twice_files [] "a.txt" ["b.txt"] []
           Examples.scenario_c_is_a_file _ eq_refl (run_result _ _ _ H1)).
Defined.

(** The script on a project that has its directory and a [main.js]
    and nothing else. *)
Lemma create_completes_a_partial_project_witness :
  ∃ w',
    Script.create_project_structure Examples.with_main_js = (Ok true, w') ∧
    fs Examples.with_main_js ⊆ fs w' ∧
    complete Script.base_path Script.project_name Script.directories
      Script.files (fs w').
Proof.
  apply (create_completes_a_partial_project Script.base_path
           Script.project_name Script.directories Script.files
           Examples.with_main_js).
  - apply tidy_below_check.
    + apply wf_fs_check; [by_evaluation|by_decision].
    + by_evaluation.
    + by_decision.
  - apply Forall_forall. by_decision.
  - assert (HF : Forall (λ d, Forall (λ g,
        project_path Script.base_path Script.project_name // g
          ≠ project_path Script.base_path Script.project_name // d)
        Script.files) Script.directories) by by_decision.
    intros d g Hd Hg.
    exact (proj1 (Forall_forall _ _) (proj1 (Forall_forall _ _) HF d Hd) g Hg).
  - apply Forall_forall. by_decision.
  - assert (HF : Forall (λ f, Forall (λ g,
        ¬ (project_path Script.base_path Script.project_name // g) `suffix_of`
          PurePath.parent (project_path Script.base_path Script.project_name // f))
        Script.files) Script.files) by by_decision.
    intros f g Hf Hg.
    exact (proj1 (Forall_forall _ _) (proj1 (Forall_forall _ _) HF f Hf) g Hg).
Defined.

Lemma create_true_means_complete_witness :
  complete Script.base_path Script.project_name Script.directories
    Script.files (fs (Script.create_project_structure Examples.fresh_volume).2).
Proof.
  assert (H1 : (Script.create_project_structure Examples.fresh_volume).1
               = Ok true) by by_evaluation.
  exact (create_true_means_complete Script.base_path Script.project_name
           Script.directories Script.files Examples.fresh_volume _
           (run_result _ _ _ H1)).
Defined.

(** The scenario on a root in which nothing can be made. *)
Lemma readonly_project_directory_is_reported_witness :
  create_project_structure Examples.scenario_root Examples.scenario_name
    Examples.scenario_directories Examples.scenario_files
    Cases.readonly_project =
  (Ok false,
   printed (opening_lines Examples.scenario_root Examples.scenario_name
              ++ map dir_line []
              ++ [ "❌ Fehler: Keine Berechtigung zum Erstellen von Dateien in "
                     +:+ PurePath.str Examples.scenario_root;
                   "Führen Sie das Script als Administrator aus oder wählen Sie einen anderen Pfad." ])
     Cases.readonly_project).
Proof.
  apply (readonly_project_directory_is_reported Examples.scenario_root
           Examples.scenario_name Examples.scenario_directories
           Examples.scenario_files [] "a" ["b"] Cases.readonly_project).
  - reflexivity.
  - by_evaluation.
  - apply Forall_forall. constructor.
  - by_evaluation.
  - by_evaluation.
  - by_decision.
Defined.
